(** * apollo-server-core: the request pipeline ([requestPipeline.ts])

    A shallow embedding of [processGraphQLRequest] and of the local
    functions it closes over ([parse], [validate], [execute],
    [sendResponse], [sendErrorResponse], [initializeDataSources], ...).

    The pipeline is an [async] function that mutates the request context and
    calls out to its collaborators: the extension stack, the plugin
    dispatcher, the GraphQL engine, the persisted-query cache and the data
    sources.  It is embedded in a state-and-exception monad whose state holds
    the request context, the persisted-query store, the trace of every
    call the pipeline makes and, apart from that trace, what [console.warn]
    is given once the promise of a cache write has rejected. *)

From stdpp Require Import base strings list gmap.
From Stdlib Require Import ZArith NArith Ascii String List Lia.
Import ListNotations.
Open Scope string_scope.
Open Scope list_scope.
Set Warnings "-register-all".

(** ** SHA-256 (FIPS 180-4), as [crypto.createHash('sha256')] computes it *)

Module Sha256.

Definition word := N.

Definition mask32 : N := 4294967295%N.

Definition add32 (a b : word) : word := N.land (a + b) mask32.

Definition shr (n : N) (x : word) : word := N.shiftr x n.

Definition rotr (n : N) (x : word) : word :=
  N.lor (N.shiftr x n) (N.land (N.shiftl x (32 - n)) mask32).

Definition not32 (x : word) : word := N.lxor x mask32.

Definition Ch (x y z : word) : word :=
  N.lxor (N.land x y) (N.land (not32 x) z).

Definition Maj (x y z : word) : word :=
  N.lxor (N.lxor (N.land x y) (N.land x z)) (N.land y z).

Definition bsig0 (x : word) : word :=
  N.lxor (N.lxor (rotr 2 x) (rotr 13 x)) (rotr 22 x).

Definition bsig1 (x : word) : word :=
  N.lxor (N.lxor (rotr 6 x) (rotr 11 x)) (rotr 25 x).

Definition ssig0 (x : word) : word :=
  N.lxor (N.lxor (rotr 7 x) (rotr 18 x)) (shr 3 x).

Definition ssig1 (x : word) : word :=
  N.lxor (N.lxor (rotr 17 x) (rotr 19 x)) (shr 10 x).

(** The constants are the first 32 bits of the fractional parts of the
    cube roots (for [K]) and of the square roots (for [H0]) of the first
    primes. *)
Definition is_prime (n : N) : bool :=
  forallb (fun d => (n <? d * d)%N || negb (n mod d =? 0)%N)
    (List.map N.of_nat (seq 2 17)).

Definition primes : list N :=
  List.filter is_prime (List.map N.of_nat (seq 2 310)).

(** The integer cube root, bit by bit from bit [bits - 1] down. *)
Fixpoint icbrt (bits : nat) (n acc : N) : N :=
  match bits with
  | O => acc
  | S b =>
      let candidate := (acc + N.shiftl 1 (N.of_nat b))%N in
      icbrt b n
        (if (candidate * candidate * candidate <=? n)%N then candidate
         else acc)
  end.

Definition K : list word :=
  List.map (fun p => N.land (icbrt 36 (N.shiftl p 96) 0) mask32) primes.

Definition H0 : list word :=
  List.map (fun p => N.land (N.sqrt (N.shiftl p 64)) mask32)
    (firstn 8 primes).

(** Padding: a 1 bit, zero bits up to 56 modulo 64 bytes, then the
    message length in bits as a 64-bit big-endian integer. *)
Fixpoint be_bytes (n : nat) (x : N) : list N :=
  match n with
  | O => []
  | S n' => be_bytes n' (N.shiftr x 8) ++ [N.land x 255]
  end.

Definition pad (msg : list N) : list N :=
  let len := List.length msg in
  let zeros := ((64 - ((len + 9) mod 64)) mod 64)%nat in
  msg ++ [128%N] ++ List.repeat 0%N zeros
      ++ be_bytes 8 (N.of_nat len * 8).

Fixpoint be_words (fuel : nat) (bs : list N) : list word :=
  match fuel, bs with
  | S f, b0 :: b1 :: b2 :: b3 :: rest =>
      (N.shiftl b0 24 + N.shiftl b1 16 + N.shiftl b2 8 + b3)%N
        :: be_words f rest
  | _, _ => []
  end.

Fixpoint blocks (fuel : nat) (ws : list word) : list (list word) :=
  match fuel, ws with
  | S f, _ :: _ => firstn 16 ws :: blocks f (skipn 16 ws)
  | _, _ => []
  end.

(** Message schedule; [rev_w] holds W[t-1], W[t-2], ... *)
Fixpoint schedule (n : nat) (rev_w : list word) : list word :=
  match n with
  | O => rev_w
  | S n' =>
      let w := add32 (add32 (ssig1 (nth 1 rev_w 0%N)) (nth 6 rev_w 0%N))
                     (add32 (ssig0 (nth 14 rev_w 0%N)) (nth 15 rev_w 0%N)) in
      schedule n' (w :: rev_w)
  end.

Definition expand (block : list word) : list word :=
  rev (schedule 48 (rev block)).

Record regs := Regs
  { ra : word; rb : word; rc : word; rd : word;
    re : word; rf : word; rg : word; rh : word }.

Definition round (r : regs) (kw : word * word) : regs :=
  let t1 := add32 (add32 (add32 (rh r) (bsig1 (re r)))
                         (add32 (Ch (re r) (rf r) (rg r)) (fst kw)))
                  (snd kw) in
  let t2 := add32 (bsig0 (ra r)) (Maj (ra r) (rb r) (rc r)) in
  Regs (add32 t1 t2) (ra r) (rb r) (rc r)
       (add32 (rd r) t1) (re r) (rf r) (rg r).

Definition regs_of (h : list word) : regs :=
  Regs (nth 0 h 0%N) (nth 1 h 0%N) (nth 2 h 0%N) (nth 3 h 0%N)
       (nth 4 h 0%N) (nth 5 h 0%N) (nth 6 h 0%N) (nth 7 h 0%N).

Definition list_of (r : regs) : list word :=
  [ra r; rb r; rc r; rd r; re r; rf r; rg r; rh r].

Definition compress (h : list word) (block : list word) : list word :=
  let r := fold_left round (combine K (expand block)) (regs_of h) in
  List.map (fun p => add32 (fst p) (snd p)) (combine h (list_of r)).

Definition digest (msg : list N) : list N :=
  let p := pad msg in
  let ws := be_words (List.length p) p in
  let h := fold_left compress (blocks (List.length ws) ws) H0 in
  List.flat_map (be_bytes 4) h.

(** [digest('hex')]: two lower-case hexadecimal digits per byte. *)
Definition hex_digit (n : N) : ascii :=
  if (n <? 10)%N then ascii_of_N (48 + n) else ascii_of_N (87 + n).

Fixpoint hex (bs : list N) : string :=
  match bs with
  | [] => EmptyString
  | b :: rest =>
      String (hex_digit (N.shiftr b 4))
        (String (hex_digit (N.land b 15)) (hex rest))
  end.

(** [update(query)] feeds the UTF-8 bytes of the string; a [string] here
    is that byte sequence. *)
Fixpoint bytes_of (s : string) : list N :=
  match s with
  | EmptyString => []
  | String c rest => N_of_ascii c :: bytes_of rest
  end.

End Sha256.

(** [computeQueryHash] (lines 65-69). *)
Definition computeQueryHash (query : string) : string :=
  Sha256.hex (Sha256.digest (Sha256.bytes_of query)).

(** A digit or a letter from [a] to [f]. *)
Definition isHexDigit (c : ascii) : bool :=
  let n := N_of_ascii c in
  ((48 <=? n)%N && (n <=? 57)%N) || ((97 <=? n)%N && (n <=? 102)%N).

(** ** Data model *)

(** The error classes the pipeline throws or attaches to a response
    ([apollo-server-errors], [requestPipelineAPI], the engine's
    [GraphQLError], a plain [Error], the [TypeError] of a property read on
    [null]) and application-defined codes. *)
Inductive ErrorClass : Type :=
| SyntaxError
| ValidationError
| PersistedQueryNotSupportedError
| PersistedQueryNotFoundError
| InvalidGraphQLRequestError
| GraphQLError
| PlainError
| TypeError
| ApolloError (code : string).

Record JSError : Type := mkError
  { errClass : ErrorClass;
    errMessage : string }.

(** JavaScript values held in responses and in the user context;
    [JHostObject] stands for a value that is not data (a callback, a patch
    stream, the extension stack). *)
Inductive JSValue : Type :=
| JUndefined
| JNull
| JBool (b : bool)
| JNumber (z : Z)
| JString (s : string)
| JArray (xs : list JSValue)
| JObject (fields : gmap string JSValue)
| JErrors (errors : list JSError)
| JHostObject (label : string).

(** [GraphQLResponse]: [{ data?, errors?, extensions?, http? }], an object
    that [sendResponse] spreads and overwrites by key. *)
Abbreviation GraphQLResponse := (gmap string JSValue).

(** Reading a property: an absent key reads as [undefined]. *)
Definition prop (o : GraphQLResponse) (key : string) : JSValue :=
  default JUndefined (o !! key).

(** [v !== undefined]. *)
Definition defined (v : JSValue) : bool :=
  match v with
  | JUndefined => false
  | _ => true
  end.

Record PersistedQuery : Type := mkPersistedQuery
  { version : Z;
    sha256Hash : string }.

Record RequestExtensions : Type := mkRequestExtensions
  { persistedQuery : option PersistedQuery }.

Record GraphQLRequest : Type := mkRequest
  { req_query : option string;
    req_operationName : option string;
    req_variables : option (gmap string JSValue);
    req_extensions : option RequestExtensions;
    req_http : option JSValue }.

Record ExecutionPatchResult : Type := mkPatch
  { patch_path : list string;
    patch_data : JSValue;
    patch_errors : list JSError }.

(** Modelled from the spec: the extension classes of [graphql-extensions]
    (section 4.3) are not among the sources.  An extension is known by its
    declared name, by what its [willSendResponse] returns for a response
    ([None] when it returns nothing) and by the entry its [format] gives. *)
Record GraphQLExtension : Type := mkExtension
  { ext_name : string;
    ext_willSendResponse : option (GraphQLResponse -> option GraphQLResponse);
    ext_format : option (string * JSValue) }.

Record GraphQLExtensionStack : Type := mkStack
  { stack_extensions : list GraphQLExtension }.

(** The end callback that [extensionStack.requestDidStart] returns. *)
Inductive EndCallback : Type :=
| RequestDidEndCallback.

Record DeferredGraphQLResponse : Type := mkDeferred
  { d_initialResponse : GraphQLResponse;
    d_deferredPatches : list ExecutionPatchResult;
    d_requestDidEnd : EndCallback;
    d_extensionStack : GraphQLExtensionStack }.

(** [GraphQLResponse | DeferredGraphQLResponse]. *)
Inductive ResponseValue : Type :=
| Complete (response : GraphQLResponse)
| Deferred (response : DeferredGraphQLResponse).

(** A response as the object it is.  The envelope of lines 285-290 holds
    its initial response, the patch stream, the end callback and the
    extension stack. *)
Definition fieldsOf (response : ResponseValue) : GraphQLResponse :=
  match response with
  | Complete r => r
  | Deferred d =>
      <["extensionStack" := JHostObject "extensionStack"]>
        (<["requestDidEnd" := JHostObject "requestDidEnd"]>
           (<["deferredPatches" := JHostObject "deferredPatches"]>
              (<["initialResponse" := JObject (d_initialResponse d)]> ∅)))
  end.

(** [isDeferredGraphQLResponse] (lines 71-78): a structural test, made on
    whatever response it is given: [initialResponse] and [deferredPatches]
    are both there.  The envelope has them; an object that
    [formatResponse] returned may have them as well. *)
Definition isDeferredGraphQLResponse (result : ResponseValue) : bool :=
  defined (prop (fieldsOf result) "initialResponse")
  && defined (prop (fieldsOf result) "deferredPatches").

(** [ExecutionResult | DeferredExecutionResult] of [./execute]. *)
Inductive ExecutionOutcome : Type :=
| PlainResult (result : GraphQLResponse)
| DeferredResult (initialResult : GraphQLResponse)
                 (patches : list ExecutionPatchResult).

(** Modelled from the spec: [isDeferredExecutionResult] of [./execute]
    (section 4.5): a result is deferred when it carries [initialResult] and
    [deferredPatches]. *)
Definition isDeferredExecutionResult (result : ExecutionOutcome) : bool :=
  match result with
  | DeferredResult _ _ => true
  | PlainResult _ => false
  end.

(** A data source: [initialize] is optional. *)
Record DataSource : Type := mkDataSource
  { ds_hasInitialize : bool }.

(** The user-defined context bag. *)
Inductive ContextValue : Type :=
| UserValue (v : JSValue)
| ExtensionStackValue (stack : GraphQLExtensionStack)
| DataSourcesValue (dataSources : list (string * DataSource)).

(** The did-start hooks and the fire-style hooks of a request listener. *)
Inductive Stage : Type := Parsing | Validation | Execution.
Inductive AsyncHook : Type := DidResolveOperation | WillSendResponse.

(** The persisted-query cache is the host's; [get] reads the store.  A
    call of [set] throws, or it returns a promise; that promise rejects,
    or the store is written. *)
Record KeyValueCache : Type := mkCache
  { cache_set_throws : string -> string -> option JSError;
    cache_set_failure : string -> string -> option JSError }.

Record PersistedQueryOptions : Type := mkPersistedQueryOptions
  { pq_cache : option KeyValueCache }.

(** [ExecutionArgs], the argument of the engine's execute entry point. *)
Record ExecutionArgs (Schema Document Resolver : Type) : Type := mkExecutionArgs
  { args_schema : Schema;
    args_document : Document;
    args_rootValue : JSValue;
    args_contextValue : gmap string ContextValue;
    args_variableValues : option (gmap string JSValue);
    args_operationName : option string;
    args_fieldResolver : option Resolver;
    args_enableDefer : bool }.
Arguments mkExecutionArgs {Schema Document Resolver}.
Arguments args_document {Schema Document Resolver}.
Arguments args_contextValue {Schema Document Resolver}.

(** What the pipeline consumes through a narrow interface: the query
    engine ([graphql]'s [parse], [validate], [specifiedRules] and
    [getOperationAST], the deferred [execute] of [./execute], the rule of
    [./validationRules/CannotDeferNonNullableFields]), the two built-in
    extensions, and the properties of the values of the host that are not
    data.  A thrown exception or a rejected promise is the [inl] case;
    [validate] returns its errors, and throws when it cannot validate at
    all. *)
Class Externals : Type := mkExternals
  { GraphQLSchema : Type;
    DocumentNode : Type;
    OperationDefinitionNode : Type;
    ValidationRule : Type;
    FieldResolver : Type;
    CacheControlExtensionOptions : Type;
    graphql_parse : string -> JSError + DocumentNode;
    graphql_validate :
      GraphQLSchema -> DocumentNode -> list ValidationRule ->
      JSError + list JSError;
    specifiedRules : list ValidationRule;
    CannotDeferNonNullableFields : ValidationRule;
    getOperationAST :
      DocumentNode -> option string -> option OperationDefinitionNode;
    operation_name : OperationDefinitionNode -> option string;
    executeWithDefer :
      ExecutionArgs GraphQLSchema DocumentNode FieldResolver ->
      JSError + ExecutionOutcome;
    TracingExtension : GraphQLExtension;
    CacheControlExtension : CacheControlExtensionOptions -> GraphQLExtension;
    host_property : string -> string -> JSValue }.

Section Pipeline.

Context `{Externals}.

(** [rootValue?: ((document: DocumentNode) => any) | any]. *)
Inductive RootValue : Type :=
| RootFunction (f : DocumentNode -> JSValue)
| RootConstant (v : JSValue).

Record GraphQLRequestContext : Type := mkRequestContext
  { rc_request : GraphQLRequest;
    rc_response : option ResponseValue;
    rc_context : gmap string ContextValue;
    rc_queryHash : option string;
    rc_document : option DocumentNode;
    rc_operation : option OperationDefinitionNode;
    (** [operationName?: string | null]: unset, [null], or a name. *)
    rc_operationName : option (option string) }.

Definition with_response (rc : GraphQLRequestContext)
    (response : ResponseValue) : GraphQLRequestContext :=
  mkRequestContext (rc_request rc) (Some response) (rc_context rc)
    (rc_queryHash rc) (rc_document rc) (rc_operation rc)
    (rc_operationName rc).

Definition with_context (rc : GraphQLRequestContext)
    (context : gmap string ContextValue) : GraphQLRequestContext :=
  mkRequestContext (rc_request rc) (rc_response rc) context
    (rc_queryHash rc) (rc_document rc) (rc_operation rc)
    (rc_operationName rc).

Definition with_queryHash (rc : GraphQLRequestContext)
    (queryHash : string) : GraphQLRequestContext :=
  mkRequestContext (rc_request rc) (rc_response rc) (rc_context rc)
    (Some queryHash) (rc_document rc) (rc_operation rc)
    (rc_operationName rc).

Definition with_document (rc : GraphQLRequestContext)
    (document : DocumentNode) : GraphQLRequestContext :=
  mkRequestContext (rc_request rc) (rc_response rc) (rc_context rc)
    (rc_queryHash rc) (Some document) (rc_operation rc)
    (rc_operationName rc).

Definition with_operation (rc : GraphQLRequestContext)
    (operation : option OperationDefinitionNode)
    (operationName : option string) : GraphQLRequestContext :=
  mkRequestContext (rc_request rc) (rc_response rc) (rc_context rc)
    (rc_queryHash rc) (rc_document rc) operation (Some operationName).

(** Modelled from the spec: the listener objects of
    [apollo-server-plugin-base] (sections 4.4 and 6).  Every hook is
    optional.  A did-start hook tells whether it returns an end callback; a
    fire-style hook resolves ([None]) or rejects with an error. *)
Record GraphQLRequestListener : Type := mkListener
  { parsingDidStart : option (GraphQLRequestContext -> bool);
    validationDidStart : option (GraphQLRequestContext -> bool);
    executionDidStart : option (GraphQLRequestContext -> bool);
    didResolveOperation : option (GraphQLRequestContext -> option JSError);
    willSendResponse : option (GraphQLRequestContext -> option JSError) }.

Record ApolloServerPlugin : Type := mkPlugin
  { requestDidStart :
      option (GraphQLRequestContext -> option GraphQLRequestListener) }.

(** [GraphQLRequestPipelineConfig] (lines 80-99). *)
Record GraphQLRequestPipelineConfig : Type := mkConfig
  { schema : GraphQLSchema;
    rootValue : option RootValue;
    validationRules : option (list ValidationRule);
    fieldResolver : option FieldResolver;
    dataSources : option (unit -> list (string * DataSource));
    extensions : option (list (unit -> GraphQLExtension));
    tracing : bool;
    persistedQueries : option PersistedQueryOptions;
    cacheControl : option CacheControlExtensionOptions;
    formatResponse :
      option (GraphQLResponse -> gmap string ContextValue -> GraphQLResponse);
    plugins : option (list ApolloServerPlugin);
    enableDefer : bool }.

(** *** The trace of calls and context writes

    A call to a collaborator is recorded together with what it gave
    back. *)

Inductive Event : Type :=
(* the extension stack *)
| EnableGraphQLExtensions
| ExtRequestDidStart (persistedQueryHit persistedQueryRegister : bool)
| ExtRequestDidEnd
| ExtDidStart (stage : Stage)
| ExtDidEnd (stage : Stage)
| ExtFormat
| ExtWillSendResponse (graphqlResponse : GraphQLResponse)
(* the plugin dispatcher and its listeners, by position *)
| PluginRequestDidStart (plugin : nat)
| DispatchDidStart (stage : Stage)
| ListenerDidStart (listener : nat) (stage : Stage)
| DispatchDidEnd (stage : Stage) (errors : list JSError)
| ListenerDidEnd (listener : nat) (stage : Stage) (errors : list JSError)
| DispatchHook (hook : AsyncHook)
| ListenerHook (listener : nat) (hook : AsyncHook)
               (rejection : option JSError)
(* the engine *)
| EngineParse (query : string) (result : JSError + DocumentNode)
| EngineValidate (document : DocumentNode) (rules : list ValidationRule)
                 (result : JSError + list JSError)
| EngineExecute
    (args : ExecutionArgs GraphQLSchema DocumentNode FieldResolver)
    (result : JSError + ExecutionOutcome)
(* the persisted-query cache: a read; a write that returned a promise,
   with the rejection of that promise if any; a write that threw *)
| CacheGet (key : string) (value : option string)
| CacheSet (key value : string) (failure : option JSError)
| CacheSetThrow (key value : string) (error : JSError)
(* data sources *)
| DataSourceInitialize (name : string)
(* writes to the request context *)
| SetQueryHash (queryHash : string)
| SetDocument (document : DocumentNode)
| SetOperation (operation : option OperationDefinitionNode)
               (operationName : option string)
| SetResponse (response : ResponseValue).

(** *** The monad: request context, cache store and trace; exceptions

    The trace holds the calls in the order the pipeline makes them.  What
    [console.warn] is given is kept apart: the handler of line 161 runs
    when the promise of the cache write rejects, at some later time, which
    has no place in that order. *)

Record State : Type := mkState
  { requestContext : GraphQLRequestContext;
    store : gmap string string;
    trace : list Event;
    consoleWarnings : list JSError }.

Inductive Outcome (A : Type) : Type :=
| Ret (a : A)
| Throw (e : JSError).
Arguments Ret {A}.
Arguments Throw {A}.

Definition M (A : Type) : Type := State -> Outcome A * State.

Definition ret {A} (a : A) : M A := fun s => (Ret a, s).

Definition bind {A B} (m : M A) (k : A -> M B) : M B :=
  fun s =>
    match m s with
    | (Ret a, s') => k a s'
    | (Throw e, s') => (Throw e, s')
    end.

Definition throw {A} (e : JSError) : M A := fun s => (Throw e, s).

(** [try { m } catch (e) { handler e }]. *)
Definition try_catch {A} (m : M A) (handler : JSError -> M A) : M A :=
  fun s =>
    match m s with
    | (Ret a, s') => (Ret a, s')
    | (Throw e, s') => handler e s'
    end.

(** [try { m } finally { cleanup }]: the cleanup runs on both exits. *)
Definition try_finally {A} (m : M A) (cleanup : M unit) : M A :=
  fun s =>
    match m s with
    | (r, s') =>
        match cleanup s' with
        | (Ret _, s'') => (r, s'')
        | (Throw e, s'') => (Throw e, s'')
        end
    end.

Definition emit (e : Event) : M unit :=
  fun s =>
    (Ret tt,
     mkState (requestContext s) (store s) (trace s ++ [e])
       (consoleWarnings s)).

Definition emits (es : list Event) : M unit :=
  fun s =>
    (Ret tt,
     mkState (requestContext s) (store s) (trace s ++ es)
       (consoleWarnings s)).

(** [console.warn(e)], once the promise has rejected. *)
Definition warnLater (e : JSError) : M unit :=
  fun s =>
    (Ret tt,
     mkState (requestContext s) (store s) (trace s)
       (consoleWarnings s ++ [e])).

Definition getRequestContext : M GraphQLRequestContext :=
  fun s => (Ret (requestContext s), s).

Definition setRequestContext (rc : GraphQLRequestContext) : M unit :=
  fun s => (Ret tt, mkState rc (store s) (trace s) (consoleWarnings s)).

Definition getStore : M (gmap string string) :=
  fun s => (Ret (store s), s).

Definition setStore (st : gmap string string) : M unit :=
  fun s =>
    (Ret tt, mkState (requestContext s) st (trace s) (consoleWarnings s)).

(** A promise, once settled.  Awaited calls are run where they are made;
    a promise that is returned without [await] is carried as a value, so
    that a [catch] around the [return] does not see its rejection. *)
Inductive Promise (A : Type) : Type :=
| Fulfilled (a : A)
| Rejected (e : JSError).
Arguments Fulfilled {A}.
Arguments Rejected {A}.

Definition await {A} (p : Promise A) : M A :=
  match p with
  | Fulfilled a => ret a
  | Rejected e => throw e
  end.

(** Calling an [async] function: an exception of its body settles the
    promise it returns. *)
Definition async {A} (body : M A) : M (Promise A) :=
  fun s =>
    match body s with
    | (Ret a, s') => (Ret (Fulfilled a), s')
    | (Throw e, s') => (Ret (Rejected e), s')
    end.

(** An [async] function whose [return] hands over another promise. *)
Definition async_returning {A} (body : M (Promise A)) : M (Promise A) :=
  fun s =>
    match body s with
    | (Ret p, s') => (Ret p, s')
    | (Throw e, s') => (Ret (Rejected e), s')
    end.

Declare Scope pipeline_scope.
Delimit Scope pipeline_scope with pipeline.
Notation "'let*' x ':=' m 'in' k" := (bind m (fun x => k))
  (at level 10, x pattern, m at level 100, k at level 200)
  : pipeline_scope.
Notation "m ';;' k" := (bind m (fun _ => k))
  (at level 100, k at level 200, right associativity) : pipeline_scope.
Local Open Scope pipeline_scope.

(** *** The extension stack *)

(** Modelled from the spec: [GraphQLExtensionStack] of
    [graphql-extensions] (section 4.3) is not among the sources.  Each
    lifecycle call reaches the stack once; a did-start call returns the
    closure that signals the end.  [format] merges the entries of the
    extensions into one map keyed by name; [willSendResponse] threads the
    response through the extensions that implement it. *)
Definition stack_requestDidStart (stack : GraphQLExtensionStack)
    (persistedQueryHit persistedQueryRegister : bool) : M EndCallback :=
  emit (ExtRequestDidStart persistedQueryHit persistedQueryRegister) ;;
  ret RequestDidEndCallback.

Definition call (callback : EndCallback) : M unit :=
  match callback with
  | RequestDidEndCallback => emit ExtRequestDidEnd
  end.

Definition stack_didStart (stack : GraphQLExtensionStack) (stage : Stage)
    : M (M unit) :=
  emit (ExtDidStart stage) ;;
  ret (emit (ExtDidEnd stage)).

Definition format_entries (stack : GraphQLExtensionStack)
    : gmap string JSValue :=
  fold_left
    (fun acc ext =>
       match ext_format ext with
       | Some (key, value) => <[key := value]> acc
       | None => acc
       end)
    (stack_extensions stack) ∅.

Definition stack_format (stack : GraphQLExtensionStack)
    : M (gmap string JSValue) :=
  emit ExtFormat ;;
  ret (format_entries stack).

Definition thread_willSendResponse (stack : GraphQLExtensionStack)
    (graphqlResponse : GraphQLResponse) : GraphQLResponse :=
  fold_left
    (fun reference ext =>
       match ext_willSendResponse ext with
       | Some hook => default reference (hook reference)
       | None => reference
       end)
    (stack_extensions stack) graphqlResponse.

Definition stack_willSendResponse (stack : GraphQLExtensionStack)
    (graphqlResponse : GraphQLResponse) : M GraphQLResponse :=
  emit (ExtWillSendResponse graphqlResponse) ;;
  ret (thread_willSendResponse stack graphqlResponse).

(** *** The plugin dispatcher *)

(** Modelled from the spec: [Dispatcher] of [./utils/dispatcher] (section
    4.4) is not among the sources.  A did-start call invokes the hook of
    every listener that has it, in registration order, and returns one end
    callback that invokes the collected end callbacks in that order.  A
    fire-style call awaits the listeners one after the other; the first
    rejection ends it. *)
Definition Dispatcher : Type := list GraphQLRequestListener.

Definition didStartHook (stage : Stage) (l : GraphQLRequestListener)
    : option (GraphQLRequestContext -> bool) :=
  match stage with
  | Parsing => parsingDidStart l
  | Validation => validationDidStart l
  | Execution => executionDidStart l
  end.

Definition asyncHook (hook : AsyncHook) (l : GraphQLRequestListener)
    : option (GraphQLRequestContext -> option JSError) :=
  match hook with
  | DidResolveOperation => didResolveOperation l
  | WillSendResponse => willSendResponse l
  end.

Fixpoint collectDidEnd (stage : Stage) (rc : GraphQLRequestContext)
    (i : nat) (targets : list GraphQLRequestListener)
    : list Event * list nat :=
  match targets with
  | [] => ([], [])
  | l :: rest =>
      let '(events, ends) := collectDidEnd stage rc (S i) rest in
      match didStartHook stage l with
      | Some hook =>
          (ListenerDidStart i stage :: events,
           if hook rc then i :: ends else ends)
      | None => (events, ends)
      end
  end.

(** The aggregate end callback; [errors] is empty when it is called
    without an argument. *)
Definition didEndHook (stage : Stage) (ends : list nat)
    (errors : list JSError) : M unit :=
  emit (DispatchDidEnd stage errors) ;;
  emits (List.map (fun i => ListenerDidEnd i stage errors) ends).

Definition invokeDidStartHook (dispatcher : Dispatcher) (stage : Stage)
    : M (list JSError -> M unit) :=
  let* rc := getRequestContext in
  emit (DispatchDidStart stage) ;;
  let '(events, ends) := collectDidEnd stage rc 0 dispatcher in
  emits events ;;
  ret (didEndHook stage ends).

Fixpoint awaitEach (hook : AsyncHook) (i : nat)
    (targets : list GraphQLRequestListener) : M unit :=
  match targets with
  | [] => ret tt
  | l :: rest =>
      match asyncHook hook l with
      | Some method =>
          let* rc := getRequestContext in
          emit (ListenerHook i hook (method rc)) ;;
          match method rc with
          | Some rejection => throw rejection
          | None => awaitEach hook (S i) rest
          end
      | None => awaitEach hook (S i) rest
      end
  end.

Definition invokeHookAsync (dispatcher : Dispatcher) (hook : AsyncHook)
    : M unit :=
  emit (DispatchHook hook) ;;
  awaitEach hook 0 dispatcher.

(** *** Errors *)

(** Modelled from the spec: [fromGraphQLError] of [apollo-server-errors]
    (sections 3 and 4.2): the copy has the given class; without one it
    keeps an application-defined code and is an internal error
    otherwise. *)
Definition fromGraphQLError (err : JSError) (errorClass : option ErrorClass)
    : JSError :=
  match errorClass with
  | Some cls => mkError cls (errMessage err)
  | None =>
      match errClass err with
      | ApolloError _ => err
      | _ => mkError (ApolloError "INTERNAL_SERVER_ERROR") (errMessage err)
      end
  end.

Inductive ErrorOrErrors : Type :=
| OneError (error : JSError)
| ErrorArray (errors : list JSError).

(** *** The persisted-query cache *)

Definition cache_get (cache : KeyValueCache) (key : string)
    : M (option string) :=
  let* st := getStore in
  emit (CacheGet key (st !! key)) ;;
  ret (st !! key).

(** [cache.set(key, value)]: the call throws, or it returns a promise. *)
Definition cache_set (cache : KeyValueCache) (key value : string)
    : M (Promise unit) :=
  match cache_set_throws cache key value with
  | Some thrown =>
      emit (CacheSetThrow key value thrown) ;;
      throw thrown
  | None =>
      emit (CacheSet key value (cache_set_failure cache key value)) ;;
      match cache_set_failure cache key value with
      | Some e => ret (Rejected e)
      | None =>
          let* st := getStore in
          setStore (<[key := value]> st) ;;
          ret (Fulfilled tt)
      end
  end.

(** [Promise.resolve(p).catch(console.warn)], not awaited: the handler
    is attached to the promise that [set] returned, and runs, if that
    promise rejects, when it does. *)
Definition catch_console_warn (p : Promise unit) : M unit :=
  match p with
  | Fulfilled _ => ret tt
  | Rejected e => warnLater e
  end.

(** JavaScript truthiness of a string. *)
Definition truthy (s : string) : bool := negb (String.eqb s "").

(** *** The local functions of [processGraphQLRequest] *)

Section Request.

Variable config : GraphQLRequestPipelineConfig.

(** [initializeExtensionStack] (lines 445-462). *)
Definition initializeExtensionStack : M GraphQLExtensionStack :=
  emit EnableGraphQLExtensions ;;
  let extensions :=
    match extensions config with
    | Some factories => List.map (fun f => f tt) factories
    | None => []
    end in
  let extensions :=
    if tracing config then extensions ++ [TracingExtension]
    else extensions in
  let extensions :=
    match cacheControl config with
    | Some options => extensions ++ [CacheControlExtension options]
    | None => extensions
    end in
  ret (mkStack extensions).

(** [initializeRequestListenerDispatcher] (lines 429-443). *)
Fixpoint requestListeners (rc : GraphQLRequestContext) (i : nat)
    (plugins : list ApolloServerPlugin)
    : list Event * list GraphQLRequestListener :=
  match plugins with
  | [] => ([], [])
  | plugin :: rest =>
      let '(events, listeners) := requestListeners rc (S i) rest in
      match requestDidStart plugin with
      | None => (events, listeners)
      | Some factory =>
          (PluginRequestDidStart i :: events,
           match factory rc with
           | Some listener => listener :: listeners
           | None => listeners
           end)
      end
  end.

Definition initializeRequestListenerDispatcher : M Dispatcher :=
  match plugins config with
  | Some plugins =>
      let* rc := getRequestContext in
      let '(events, listeners) := requestListeners rc 0 plugins in
      emits events ;;
      ret listeners
  | None => ret []
  end.

Definition setContextValue (key : string) (value : ContextValue)
    : M unit :=
  let* rc := getRequestContext in
  setRequestContext (with_context rc (<[key := value]> (rc_context rc))).

(** [initializeDataSources] (lines 464-487). *)
Definition initializeDataSources : M unit :=
  match dataSources config with
  | Some factory =>
      let* rc := getRequestContext in
      let context := rc_context rc in
      let dataSources := factory tt in
      emits
        (List.map (fun entry => DataSourceInitialize (fst entry))
           (List.filter (fun entry => ds_hasInitialize (snd entry))
              dataSources)) ;;
      match context !! "dataSources" with
      | Some _ =>
          throw
            (mkError PlainError
               "Please use the dataSources config option instead of putting dataSources on the context yourself.")
      | None =>
          setContextValue "dataSources" (DataSourcesValue dataSources)
      end
  | None => ret tt
  end.

Section Closures.

Variable extensionStack : GraphQLExtensionStack.
Variable dispatcher : Dispatcher.

(** [parse] (lines 307-317). *)
Definition parse (query : string) : M DocumentNode :=
  let* parsingDidEnd := stack_didStart extensionStack Parsing in
  try_finally
    (emit (EngineParse query (graphql_parse query)) ;;
     match graphql_parse query with
     | inr document => ret document
     | inl syntaxError => throw syntaxError
     end)
    parsingDidEnd.

(** [validate] (lines 319-332). *)
Definition validate (document : DocumentNode) : M (list JSError) :=
  let rules := specifiedRules ++ [CannotDeferNonNullableFields] in
  let rules :=
    match validationRules config with
    | Some custom => rules ++ custom
    | None => rules
    end in
  let* validationDidEnd := stack_didStart extensionStack Validation in
  try_finally
    (emit (EngineValidate document rules
             (graphql_validate (schema config) document rules)) ;;
     match graphql_validate (schema config) document rules with
     | inr errors => ret errors
     | inl thrown => throw thrown
     end)
    validationDidEnd.

(** The [executionArgs] of lines 339-351. *)
Definition executionArgs (rc : GraphQLRequestContext)
    (document : DocumentNode) (operationName : option string)
    (variables : option (gmap string JSValue))
    : ExecutionArgs GraphQLSchema DocumentNode FieldResolver :=
  mkExecutionArgs (schema config) document
    match rootValue config with
    | Some (RootFunction f) => f document
    | Some (RootConstant v) => v
    | None => JUndefined
    end
    (rc_context rc) variables operationName
    (fieldResolver config) (enableDefer config).

(** [execute] (lines 334-362), an [async] function. *)
Definition execute (document : DocumentNode)
    (operationName : option string)
    (variables : option (gmap string JSValue))
    : M (Promise ExecutionOutcome) :=
  async
    (let* rc := getRequestContext in
     let executionArgs :=
       executionArgs rc document operationName variables in
     let* executionDidEnd := stack_didStart extensionStack Execution in
     try_finally
       (emit (EngineExecute executionArgs
                (executeWithDefer executionArgs)) ;;
        match executeWithDefer executionArgs with
        | inr result => ret result
        | inl executionError => throw executionError
        end)
       executionDidEnd).

Definition setResponse (response : ResponseValue) : M unit :=
  let* rc := getRequestContext in
  setRequestContext (with_response rc response) ;;
  emit (SetResponse response).

(** [{ ...base, errors: r.errors, data: r.data, extensions:
    r.extensions }]. *)
Definition overwrite (base r : GraphQLResponse) : GraphQLResponse :=
  <["extensions" := prop r "extensions"]>
    (<["data" := prop r "data"]>
       (<["errors" := prop r "errors"]> base)).

(** What [{ ...(requestContext.response).initialResponse }] spreads when
    the context holds a response. *)
Definition spread_initialResponse (current : option ResponseValue)
    : GraphQLResponse :=
  match current with
| Some (Deferred d) => d_initialResponse d
| Some (Complete r) =>
      match r !! "initialResponse" with
      | Some (JObject fields) => fields
      | _ => ∅
      end
| None => ∅
  end.

(** [{ ...requestContext.response }] on the complete path. *)
Definition spread_response (current : option ResponseValue)
    : GraphQLResponse :=
  match current with
| Some (Complete r) => r
| Some (Deferred d) =>
      <["extensionStack" := JHostObject "extensionStack"]>
        (<["requestDidEnd" := JHostObject "requestDidEnd"]>
           (<["deferredPatches" := JHostObject "deferredPatches"]>
              (<["initialResponse" := JObject (d_initialResponse d)]> ∅)))
| None => ∅
  end.

(** The message of the engine for a property read on [null] or
    [undefined]. *)
Definition typeError (key value : string) : JSError :=
  mkError TypeError
    (String.append "Cannot read property '"
       (String.append key (String.append "' of " value))).

(** What lines 377-379 read off the initial response, [.errors], [.data]
    and [.extensions], as the object of these fields: a [TypeError] at
    the first read on [null] and [undefined], the fields of an object, what
    the host says for a value of the host, and nothing on a string, a
    number, a boolean or an array, which have no such properties. *)
Definition readFields (initialResponse : JSValue)
    : JSError + GraphQLResponse :=
  match initialResponse with
  | JUndefined => inl (typeError "errors" "undefined")
  | JNull => inl (typeError "errors" "null")
  | JObject fields => inr fields
  | JHostObject label =>
      inr (<["extensions" := host_property label "extensions"]>
             (<["data" := host_property label "data"]>
                (<["errors" := host_property label "errors"]> ∅)))
  | _ => inr ∅
  end.

(** [{ ...response, initialResponse: r }] (lines 384-387). *)
Definition withInitialResponse (response : ResponseValue)
    (r : GraphQLResponse) : ResponseValue :=
  match response with
  | Deferred d =>
      Deferred
        (mkDeferred r (d_deferredPatches d) (d_requestDidEnd d)
           (d_extensionStack d))
  | Complete o => Complete (<["initialResponse" := JObject r]> o)
  end.

(** [sendResponse] (lines 364-406), an [async] function.  The branch is
    taken on the structural test of line 367, whatever built the
    response. *)
Definition sendResponse (response : ResponseValue)
    : M (Promise ResponseValue) :=
  async
    (let* rc := getRequestContext in
     if isDeferredGraphQLResponse response then
       let initialResponse := prop (fieldsOf response) "initialResponse" in
       let requestContextInitialResponse :=
         spread_initialResponse (rc_response rc) in
       match readFields initialResponse with
       | inl unreadable => throw unreadable
       | inr initial =>
           let* r :=
             stack_willSendResponse extensionStack
               (overwrite requestContextInitialResponse initial) in
           setResponse (withInitialResponse response r) ;;
           let* rc := getRequestContext in
           match rc_response rc with
           | Some out => ret out
           | None => ret response
           end
       end
     else
       let* graphqlResponse :=
         stack_willSendResponse extensionStack
           (overwrite (spread_response (rc_response rc))
              (fieldsOf response)) in
       setResponse (Complete graphqlResponse) ;;
       invokeHookAsync dispatcher WillSendResponse ;;
       let* rc := getRequestContext in
       match rc_response rc with
       | Some out => ret out
       | None => ret response
       end).

(** The object literal of lines 417-426. *)
Definition errorResponse (errors : list JSError)
    (errorClass : option ErrorClass) : GraphQLResponse :=
  <["errors" :=
      JErrors
        (List.map (fun err => fromGraphQLError err errorClass) errors)]> ∅.

(** [sendErrorResponse] (lines 408-427). *)
Definition sendErrorResponse (errorOrErrors : ErrorOrErrors)
    (errorClass : option ErrorClass) : M (Promise ResponseValue) :=
  let errors :=
    match errorOrErrors with
    | ErrorArray errors => errors
    | OneError error => [error]
    end in
  sendResponse (Complete (errorResponse errors errorClass)).

End Closures.

Definition setQueryHash (queryHash : string) : M unit :=
  let* rc := getRequestContext in
  setRequestContext (with_queryHash rc queryHash) ;;
  emit (SetQueryHash queryHash).

Definition setDocument (document : DocumentNode) : M unit :=
  let* rc := getRequestContext in
  setRequestContext (with_document rc document) ;;
  emit (SetDocument document).

Definition setOperation (operation : option OperationDefinitionNode)
    (operationName : option string) : M unit :=
  let* rc := getRequestContext in
  setRequestContext (with_operation rc operation operationName) ;;
  emit (SetOperation operation operationName).

Definition PersistedQueryNotSupported : JSError :=
  mkError PersistedQueryNotSupportedError "PersistedQueryNotSupported".

Definition PersistedQueryNotFound : JSError :=
  mkError PersistedQueryNotFoundError "PersistedQueryNotFound".

Definition InvalidGraphQLRequest (message : string) : JSError :=
  mkError InvalidGraphQLRequestError message.

(** Lines 121-169: the query text, the query hash and the two
    persisted-query flags, or a thrown error. *)
Definition resolveQuery (request : GraphQLRequest)
    : M (string * string * bool * bool) :=
  let query := req_query request in
  let extensions := req_extensions request in
  match extensions ≫= persistedQuery with
  | Some persistedQuery =>
      match persistedQueries config ≫= pq_cache with
      | None => throw PersistedQueryNotSupported
      | Some cache =>
          if negb (version persistedQuery =? 1)%Z then
            throw
              (InvalidGraphQLRequest "Unsupported persisted query version")
          else
            let queryHash := sha256Hash persistedQuery in
            match query with
            | None =>
                let* query :=
                  cache_get cache (String.append "apq:" queryHash) in
                match query with
                | Some query =>
                    if truthy query then ret (query, queryHash, true, false)
                    else throw PersistedQueryNotFound
                | None => throw PersistedQueryNotFound
                end
            | Some query =>
                let computedQueryHash := computeQueryHash query in
                if negb (String.eqb queryHash computedQueryHash) then
                  throw
                    (InvalidGraphQLRequest
                       "provided sha does not match query")
                else
                  let* written :=
                    cache_set cache (String.append "apq:" queryHash)
                      query in
                  catch_console_warn written ;;
                  ret (query, queryHash, false, true)
            end
      end
  | None =>
      match query with
      | Some query =>
          if truthy query then
            ret (query, computeQueryHash query, false, false)
          else throw (InvalidGraphQLRequest "Must provide query string.")
      | None => throw (InvalidGraphQLRequest "Must provide query string.")
      end
  end.

(** Lines 223-228. *)
Definition resolvedOperationName
    (operation : option OperationDefinitionNode) : option string :=
  match operation with
  | Some op =>
      match operation_name op with
      | Some name => if truthy name then Some name else None
      | None => None
      end
  | None => None
  end.

(** Lines 268-271. *)
Definition withExtensions (formattedExtensions : gmap string JSValue)
    (response : GraphQLResponse) : GraphQLResponse :=
  if (0 <? size formattedExtensions)%nat then
    <["extensions" := JObject formattedExtensions]> response
  else response.

(** Lines 246-300: the execute stage, in its own [try]/[catch]. *)
Definition executeAndSend (extensionStack : GraphQLExtensionStack)
    (dispatcher : Dispatcher) (request : GraphQLRequest)
    (requestDidEnd : EndCallback) (document : DocumentNode)
    (executionDidEnd : list JSError -> M unit)
    : M (Promise ResponseValue) :=
  try_catch
    (let* pending :=
       execute extensionStack document (req_operationName request)
         (req_variables request) in
     let* result := await pending in
     let isDeferred := isDeferredExecutionResult result in
     let response :=
       match result with
       | DeferredResult initialResult _ => initialResult
       | PlainResult r => r
       end in
     let patches :=
       match result with
       | DeferredResult _ deferredPatches => deferredPatches
       | PlainResult _ => []
       end in
     let* formattedExtensions := stack_format extensionStack in
     let response := withExtensions formattedExtensions response in
     let formatResponse :=
       default (fun x _ => x) (formatResponse config) in
     let* rc := getRequestContext in
     let response := formatResponse response (rc_context rc) in
     let* output :=
       if isDeferred then
         executionDidEnd [] ;;
         ret (Deferred
                (mkDeferred response patches requestDidEnd
                   extensionStack))
       else
         executionDidEnd [] ;;
         ret (Complete response) in
     sendResponse extensionStack dispatcher output)
    (fun executionError =>
       executionDidEnd [executionError] ;;
       sendErrorResponse extensionStack dispatcher
         (OneError executionError) None).

(** Lines 192-300: the body of the outer [try]. *)
Definition stages (extensionStack : GraphQLExtensionStack)
    (dispatcher : Dispatcher) (request : GraphQLRequest)
    (query : string) (requestDidEnd : EndCallback)
    (parsingDidEnd : list JSError -> M unit)
    : M (Promise ResponseValue) :=
  let* parsed :=
    try_catch
      (let* document := parse extensionStack query in
       parsingDidEnd [] ;;
       ret (inr document))
      (fun syntaxError =>
         parsingDidEnd [syntaxError] ;;
         let* returned :=
           sendErrorResponse extensionStack dispatcher
             (OneError syntaxError) (Some SyntaxError) in
         ret (inl returned)) in
  match parsed with
  | inl returned => ret returned
  | inr document =>
      setDocument document ;;
      let* validationDidEnd := invokeDidStartHook dispatcher Validation in
      let* validationErrors := validate extensionStack document in
      match validationErrors with
      | _ :: _ =>
          validationDidEnd validationErrors ;;
          sendErrorResponse extensionStack dispatcher
            (ErrorArray validationErrors) (Some ValidationError)
      | [] =>
          validationDidEnd [] ;;
          let operation :=
            getOperationAST document (req_operationName request) in
          setOperation operation (resolvedOperationName operation) ;;
          invokeHookAsync dispatcher DidResolveOperation ;;
          let* executionDidEnd :=
            invokeDidStartHook dispatcher Execution in
          executeAndSend extensionStack dispatcher request requestDidEnd
            document executionDidEnd
      end
  end.

(** [processGraphQLRequest] (lines 107-305).  The [isDeferred] that the
    cleanup block reads is the one declared before the outer [try]
    (line 190); the assignment of line 258 is to the [isDeferred] that
    line 249 declares inside the [try] block. *)
Definition processGraphQLRequest : M (Promise ResponseValue) :=
  async_returning
    (let* extensionStack := initializeExtensionStack in
     setContextValue "_extensionStack"
       (ExtensionStackValue extensionStack) ;;
     let* dispatcher := initializeRequestListenerDispatcher in
     initializeDataSources ;;
     let* rc := getRequestContext in
     let request := rc_request rc in
     let* resolved := resolveQuery request in
     let '(query, queryHash, persistedQueryHit, persistedQueryRegister) :=
       resolved in
     setQueryHash queryHash ;;
     let* requestDidEnd :=
       stack_requestDidStart extensionStack persistedQueryHit
         persistedQueryRegister in
     let* parsingDidEnd := invokeDidStartHook dispatcher Parsing in
     let isDeferred := false in
     try_finally
       (stages extensionStack dispatcher request query requestDidEnd
          parsingDidEnd)
       (if negb isDeferred then call requestDidEnd else ret tt)).

End Request.

(** *** A request, from the caller's side *)

(** The caller hands over a request context and awaits the promise; the
    store is the content of the persisted-query cache at that time. *)
Definition run (config : GraphQLRequestPipelineConfig)
    (rc : GraphQLRequestContext) (st : gmap string string)
    : Promise ResponseValue * State :=
  match processGraphQLRequest config (mkState rc st [] []) with
  | (Ret p, s) => (p, s)
  | (Throw e, s) => (Rejected e, s)
  end.

Definition outcome config rc st : Promise ResponseValue :=
  fst (run config rc st).

Definition events config rc st : list Event :=
  trace (snd (run config rc st)).

Definition finalContext config rc st : GraphQLRequestContext :=
  requestContext (snd (run config rc st)).

Definition finalStore config rc st : gmap string string :=
  store (snd (run config rc st)).

(** What [console.warn] is given, at some time after the request
    began. *)
Definition warnings config rc st : list JSError :=
  consoleWarnings (snd (run config rc st)).

(** *** Notions used in the statements *)

(** What a fire-style dispatch over [targets] does in a context [rc]:
    the listener calls it makes and the rejection that ends it. *)
Fixpoint hookCalls (hook : AsyncHook) (rc : GraphQLRequestContext)
    (i : nat) (targets : list GraphQLRequestListener)
    : list Event * option JSError :=
  match targets with
  | [] => ([], None)
  | l :: rest =>
      match asyncHook hook l with
      | Some method =>
          match method rc with
          | Some rejection =>
              ([ListenerHook i hook (Some rejection)], Some rejection)
          | None =>
              let '(calls, r) := hookCalls hook rc (S i) rest in
              (ListenerHook i hook None :: calls, r)
          end
      | None => hookCalls hook rc (S i) rest
      end
  end.

(** The failures of the query-resolution stage, as section 4.1 of the
    specification lists them: no query text; a persisted-query hint
    without a configured cache; a hint of another version than 1; a hint
    alone whose key the cache does not hold; a hint whose hash is not the
    hash of the query text that comes with it. *)
Definition resolutionFailure (config : GraphQLRequestPipelineConfig)
    (request : GraphQLRequest) (st : gmap string string)
    : option JSError :=
  match req_extensions request ≫= persistedQuery with
  | None =>
      match req_query request with
      | Some q =>
          if truthy q then None
          else Some (InvalidGraphQLRequest "Must provide query string.")
      | None => Some (InvalidGraphQLRequest "Must provide query string.")
      end
  | Some hint =>
      match persistedQueries config ≫= pq_cache with
      | None => Some PersistedQueryNotSupported
      | Some _ =>
          if negb (version hint =? 1)%Z then
            Some (InvalidGraphQLRequest "Unsupported persisted query version")
          else
            match req_query request with
            | None =>
                match st !! String.append "apq:" (sha256Hash hint) with
                | Some q =>
                    if truthy q then None else Some PersistedQueryNotFound
                | None => Some PersistedQueryNotFound
                end
            | Some q =>
                if String.eqb (sha256Hash hint) (computeQueryHash q)
                then None
                else
                  Some
                    (InvalidGraphQLRequest
                       "provided sha does not match query")
            end
      end
  end.

(** The configuration with another persisted-query cache. *)
Definition withCache (config : GraphQLRequestPipelineConfig)
    (cache : KeyValueCache) : GraphQLRequestPipelineConfig :=
  mkConfig (schema config) (rootValue config) (validationRules config)
    (fieldResolver config) (dataSources config) (extensions config)
    (tracing config) (Some (mkPersistedQueryOptions (Some cache)))
    (cacheControl config) (formatResponse config) (plugins config)
    (enableDefer config).

(** The data-source configuration error cannot arise. *)
Definition noDataSourceConflict (config : GraphQLRequestPipelineConfig)
    (rc : GraphQLRequestContext) : Prop :=
  dataSources config = None \/ rc_context rc !! "dataSources" = None.

(** The rule set of lines 320-323. *)
Definition validationRuleSet (config : GraphQLRequestPipelineConfig)
    : list ValidationRule :=
  (specifiedRules ++ [CannotDeferNonNullableFields])
    ++ default [] (validationRules config).

(** The response of the execute stage after lines 268-279. *)
Definition formatted (config : GraphQLRequestPipelineConfig)
    (stack : GraphQLExtensionStack) (rc : GraphQLRequestContext)
    (response : GraphQLResponse) : GraphQLResponse :=
  default (fun x _ => x) (formatResponse config)
    (withExtensions (format_entries stack) response) (rc_context rc).

(** The [output] of lines 281-294 for a result of execute. *)
Definition output (config : GraphQLRequestPipelineConfig)
    (stack : GraphQLExtensionStack) (rc : GraphQLRequestContext)
    (result : ExecutionOutcome) : ResponseValue :=
  match result with
  | DeferredResult initialResult patches =>
      Deferred
        (mkDeferred (formatted config stack rc initialResult) patches
           RequestDidEndCallback stack)
  | PlainResult r => Complete (formatted config stack rc r)
  end.

(** The extension stack of a request (lines 450-461). *)
Definition requestStack (config : GraphQLRequestPipelineConfig)
    : GraphQLExtensionStack :=
  let extensions :=
    match extensions config with
    | Some factories => List.map (fun f => f tt) factories
    | None => []
    end in
  let extensions :=
    if tracing config then extensions ++ [TracingExtension]
    else extensions in
  let extensions :=
    match cacheControl config with
    | Some options => extensions ++ [CacheControlExtension options]
    | None => extensions
    end in
  mkStack extensions.

(** The request context once [_extensionStack] is on the user context,
    and once the data sources are. *)
Definition initialContext (config : GraphQLRequestPipelineConfig)
    (rc : GraphQLRequestContext) : GraphQLRequestContext :=
  with_context rc
    (<["_extensionStack" := ExtensionStackValue (requestStack config)]>
       (rc_context rc)).

Definition readyContext (config : GraphQLRequestPipelineConfig)
    (rc : GraphQLRequestContext) : GraphQLRequestContext :=
  match dataSources config with
  | Some factory =>
      with_context (initialContext config rc)
        (<["dataSources" := DataSourcesValue (factory tt)]>
           (rc_context (initialContext config rc)))
  | None => initialContext config rc
  end.

Definition pluginRun (config : GraphQLRequestPipelineConfig)
    (rc : GraphQLRequestContext) : list Event * Dispatcher :=
  match plugins config with
  | Some plugins => requestListeners rc 0 plugins
  | None => ([], [])
  end.

Definition requestDispatcher (config : GraphQLRequestPipelineConfig)
    (rc : GraphQLRequestContext) : Dispatcher :=
  snd (pluginRun config (initialContext config rc)).

Definition dataSourceEvents (config : GraphQLRequestPipelineConfig)
    : list Event :=
  match dataSources config with
  | Some factory =>
      List.map (fun entry => DataSourceInitialize (fst entry))
        (List.filter (fun entry => ds_hasInitialize (snd entry))
           (factory tt))
  | None => []
  end.

Definition initEvents (config : GraphQLRequestPipelineConfig)
    (rc : GraphQLRequestContext) : list Event :=
  EnableGraphQLExtensions
    :: fst (pluginRun config (initialContext config rc))
    ++ dataSourceEvents config.

Definition conflictError : JSError :=
  mkError PlainError
    "Please use the dataSources config option instead of putting dataSources on the context yourself.".

(** The calls of one stage. *)
Definition startEvents (stage : Stage) (rc : GraphQLRequestContext)
    (d : Dispatcher) : list Event :=
  DispatchDidStart stage :: fst (collectDidEnd stage rc 0 d).

Definition endsOf (stage : Stage) (rc : GraphQLRequestContext)
    (d : Dispatcher) : list nat :=
  snd (collectDidEnd stage rc 0 d).

Definition endEvents (stage : Stage) (ends : list nat)
    (errors : list JSError) : list Event :=
  DispatchDidEnd stage errors
    :: List.map (fun i => ListenerDidEnd i stage errors) ends.

Definition parseEvents (q : string) : list Event :=
  [ExtDidStart Parsing; EngineParse q (graphql_parse q); ExtDidEnd Parsing].

Definition validateEvents (config : GraphQLRequestPipelineConfig)
    (doc : DocumentNode) : list Event :=
  [ExtDidStart Validation;
   EngineValidate doc (validationRuleSet config)
     (graphql_validate (schema config) doc (validationRuleSet config));
   ExtDidEnd Validation].

Definition executeEvents (config : GraphQLRequestPipelineConfig)
    (rc : GraphQLRequestContext) (doc : DocumentNode)
    (request : GraphQLRequest) : list Event :=
  let args :=
    executionArgs config rc doc (req_operationName request)
      (req_variables request) in
  [ExtDidStart Execution; EngineExecute args (executeWithDefer args);
   ExtDidEnd Execution].

(** *** The runs of the pipeline, path by path

    Each relation gives, for one part of [processGraphQLRequest], what it
    returns, the request context it leaves and the calls it makes; the
    lemmas [sendResponse_run], [stages_run] and [run_RequestRun] show that
    the code follows them. *)

Inductive SendRun (stack : GraphQLExtensionStack) (d : Dispatcher)
    (rc : GraphQLRequestContext)
  : ResponseValue -> Promise ResponseValue -> GraphQLRequestContext ->
    list Event -> Prop :=
| SendComplete response g out :
    isDeferredGraphQLResponse response = false ->
    g = overwrite (spread_response (rc_response rc)) (fieldsOf response) ->
    out = Complete (thread_willSendResponse stack g) ->
    SendRun stack d rc response
      (match snd (hookCalls WillSendResponse (with_response rc out) 0 d)
       with
       | Some e => Rejected e
       | None => Fulfilled out
       end)
      (with_response rc out)
      (ExtWillSendResponse g :: SetResponse out
         :: DispatchHook WillSendResponse
         :: fst (hookCalls WillSendResponse (with_response rc out) 0 d))
| SendDeferred response initial g out :
    isDeferredGraphQLResponse response = true ->
    readFields (prop (fieldsOf response) "initialResponse") = inr initial ->
    g = overwrite (spread_initialResponse (rc_response rc)) initial ->
    out = withInitialResponse response (thread_willSendResponse stack g) ->
    SendRun stack d rc response (Fulfilled out) (with_response rc out)
      [ExtWillSendResponse g; SetResponse out]
| SendUnreadable response unreadable :
    isDeferredGraphQLResponse response = true ->
    readFields (prop (fieldsOf response) "initialResponse")
      = inl unreadable ->
    SendRun stack d rc response (Rejected unreadable) rc [].

Section Runs.

Variable config : GraphQLRequestPipelineConfig.
Variable stack : GraphQLExtensionStack.
Variable d : Dispatcher.
Variable request : GraphQLRequest.

(** Lines 251-300. *)
Inductive ExecutionRun (doc : DocumentNode) (ends : list nat)
    (rc : GraphQLRequestContext)
  : Promise ResponseValue -> GraphQLRequestContext -> list Event ->
    Prop :=
| ExecutionFailure e p rc' sent :
    executeWithDefer
      (executionArgs config rc doc (req_operationName request)
         (req_variables request)) = inl e ->
    SendRun stack d rc (Complete (errorResponse [e] None)) p rc' sent ->
    ExecutionRun doc ends rc p rc'
      (executeEvents config rc doc request
         ++ endEvents Execution ends [e] ++ sent)
| PlainExecution r p rc' sent :
    executeWithDefer
      (executionArgs config rc doc (req_operationName request)
         (req_variables request)) = inr (PlainResult r) ->
    SendRun stack d rc (Complete (formatted config stack rc r)) p rc'
      sent ->
    ExecutionRun doc ends rc p rc'
      (executeEvents config rc doc request
         ++ ExtFormat :: endEvents Execution ends [] ++ sent)
| DeferredExecution initial patches p rc' sent :
    executeWithDefer
      (executionArgs config rc doc (req_operationName request)
         (req_variables request))
      = inr (DeferredResult initial patches) ->
    SendRun stack d rc
      (Deferred
         (mkDeferred (formatted config stack rc initial) patches
            RequestDidEndCallback stack)) p rc' sent ->
    ExecutionRun doc ends rc p rc'
      (executeEvents config rc doc request
         ++ ExtFormat :: endEvents Execution ends [] ++ sent).

(** Lines 230-300. *)
Inductive OperationRun (doc : DocumentNode) (rc : GraphQLRequestContext)
  : Outcome (Promise ResponseValue) -> GraphQLRequestContext ->
    list Event -> Prop :=
| HookRejection e :
    snd (hookCalls DidResolveOperation rc 0 d) = Some e ->
    OperationRun doc rc (Throw e) rc
      (DispatchHook DidResolveOperation
         :: fst (hookCalls DidResolveOperation rc 0 d))
| HooksResolved p rc' rest :
    snd (hookCalls DidResolveOperation rc 0 d) = None ->
    ExecutionRun doc (endsOf Execution rc d) rc p rc' rest ->
    OperationRun doc rc (Ret p) rc'
      (DispatchHook DidResolveOperation
         :: fst (hookCalls DidResolveOperation rc 0 d) ++
       startEvents Execution rc d ++ rest).

(** The request context after lines 203-228. *)
Definition resolved (rc : GraphQLRequestContext) (doc : DocumentNode)
    : GraphQLRequestContext :=
  with_operation (with_document rc doc)
    (getOperationAST doc (req_operationName request))
    (resolvedOperationName
       (getOperationAST doc (req_operationName request))).

(** Lines 192-300. *)
Inductive StagesRun (q : string) (ends : list nat)
    (rc : GraphQLRequestContext)
  : Outcome (Promise ResponseValue) -> GraphQLRequestContext ->
    list Event -> Prop :=
| SyntaxFailure e p rc' sent :
    graphql_parse q = inl e ->
    SendRun stack d rc
      (Complete (errorResponse [e] (Some SyntaxError))) p rc' sent ->
    StagesRun q ends rc (Ret p) rc'
      (parseEvents q ++ endEvents Parsing ends [e] ++ sent)
| ValidationThrow doc thrown :
    graphql_parse q = inr doc ->
    graphql_validate (schema config) doc (validationRuleSet config)
      = inl thrown ->
    StagesRun q ends rc (Throw thrown) (with_document rc doc)
      (parseEvents q ++ endEvents Parsing ends [] ++
       SetDocument doc
         :: startEvents Validation (with_document rc doc) d ++
       validateEvents config doc)
| ValidationFailure doc errs p rc' sent :
    graphql_parse q = inr doc ->
    graphql_validate (schema config) doc (validationRuleSet config)
      = inr errs ->
    errs <> [] ->
    SendRun stack d (with_document rc doc)
      (Complete (errorResponse errs (Some ValidationError))) p rc'
      sent ->
    StagesRun q ends rc (Ret p) rc'
      (parseEvents q ++ endEvents Parsing ends [] ++
       SetDocument doc
         :: startEvents Validation (with_document rc doc) d ++
       validateEvents config doc ++
       endEvents Validation (endsOf Validation (with_document rc doc) d)
         errs ++
       sent)
| Validated doc r rc' rest :
    graphql_parse q = inr doc ->
    graphql_validate (schema config) doc (validationRuleSet config)
      = inr [] ->
    OperationRun doc (resolved rc doc) r rc' rest ->
    StagesRun q ends rc r rc'
      (parseEvents q ++ endEvents Parsing ends [] ++
       SetDocument doc
         :: startEvents Validation (with_document rc doc) d ++
       validateEvents config doc ++
       endEvents Validation (endsOf Validation (with_document rc doc) d)
         [] ++
       SetOperation (getOperationAST doc (req_operationName request))
         (resolvedOperationName
            (getOperationAST doc (req_operationName request)))
         :: rest).

End Runs.

(** Lines 107-305. *)
Inductive RequestRun (config : GraphQLRequestPipelineConfig)
    (rc : GraphQLRequestContext) (st : gmap string string)
  : Promise ResponseValue -> State -> Prop :=
| ConfigurationError factory v :
    dataSources config = Some factory ->
    rc_context rc !! "dataSources" = Some v ->
    RequestRun config rc st (Rejected conflictError)
      (mkState (initialContext config rc) st (initEvents config rc) [])
| ResolutionError e s :
    noDataSourceConflict config rc ->
    resolveQuery config (rc_request rc)
      (mkState (readyContext config rc) st (initEvents config rc) [])
      = (Throw e, s) ->
    RequestRun config rc st (Rejected e) s
| Processed q hash hit reg s r rc' es :
    noDataSourceConflict config rc ->
    resolveQuery config (rc_request rc)
      (mkState (readyContext config rc) st (initEvents config rc) [])
      = (Ret (q, hash, hit, reg), s) ->
    StagesRun config (requestStack config) (requestDispatcher config rc)
      (rc_request rc) q
      (endsOf Parsing (with_queryHash (requestContext s) hash)
         (requestDispatcher config rc))
      (with_queryHash (requestContext s) hash) r rc' es ->
    RequestRun config rc st
      (match r with
       | Ret p => p
       | Throw e => Rejected e
       end)
      (mkState rc' (store s)
         (trace s ++
          SetQueryHash hash :: ExtRequestDidStart hit reg
            :: startEvents Parsing (with_queryHash (requestContext s) hash)
                 (requestDispatcher config rc) ++
          es ++ [ExtRequestDidEnd])
         (consoleWarnings s)).

(** *** Kinds of events *)

Definition isDispatchWillSend (e : Event) : bool :=
  match e with DispatchHook WillSendResponse => true | _ => false end.

Definition isExtWillSend (e : Event) : bool :=
  match e with ExtWillSendResponse _ => true | _ => false end.

Definition isSetResponse (e : Event) : bool :=
  match e with SetResponse _ => true | _ => false end.

Definition isRequestDidStart (e : Event) : bool :=
  match e with ExtRequestDidStart _ _ => true | _ => false end.

Definition isRequestDidEnd (e : Event) : bool :=
  match e with ExtRequestDidEnd => true | _ => false end.

Definition isCacheEvent (e : Event) : bool :=
  match e with
  | CacheGet _ _ | CacheSet _ _ _ | CacheSetThrow _ _ _ => true
  | _ => false
  end.

Definition isCacheSet (e : Event) : bool :=
  match e with CacheSet _ _ _ | CacheSetThrow _ _ _ => true | _ => false end.

Definition isSetQueryHash (e : Event) : bool :=
  match e with SetQueryHash _ => true | _ => false end.

Definition isDataSourceInitialize (e : Event) : bool :=
  match e with DataSourceInitialize _ => true | _ => false end.

Definition isEngineParse (e : Event) : bool :=
  match e with EngineParse _ _ => true | _ => false end.

Definition isEngineValidate (e : Event) : bool :=
  match e with EngineValidate _ _ _ => true | _ => false end.

(** The events of the execute stage. *)
Definition isExecutionEvent (e : Event) : bool :=
  match e with
  | DispatchDidStart Execution | ListenerDidStart _ Execution
  | ExtDidStart Execution | EngineExecute _ _ | ExtDidEnd Execution
  | DispatchDidEnd Execution _ | ListenerDidEnd _ Execution _ => true
  | _ => false
  end.

(** A listener's fire-style hook rejected. *)
Definition isRejection (hook : AsyncHook) (e : Event) : bool :=
  match e with
  | ListenerHook _ h rejection =>
      match hook, h with
      | DidResolveOperation, DidResolveOperation
      | WillSendResponse, WillSendResponse => bool_decide (is_Some rejection)
      | _, _ => false
      end
  | _ => false
  end.

Definition count (p : Event -> bool) (l : list Event) : nat :=
  List.length (List.filter p l).

(** Further kinds of events. *)

(** A call of the cache, [get] or [set]. *)
Definition isCacheCall (e : Event) : bool :=
  match e with
  | CacheGet _ _ | CacheSet _ _ _ | CacheSetThrow _ _ _ => true
  | _ => false
  end.

Definition isEngineExecute (e : Event) : bool :=
  match e with EngineExecute _ _ => true | _ => false end.

Definition isExtFormat (e : Event) : bool :=
  match e with ExtFormat => true | _ => false end.

Definition isPluginRequestDidStart (e : Event) : bool :=
  match e with PluginRequestDidStart _ => true | _ => false end.

(** The did-start and end calls of one stage. *)
Definition sameStage (a b : Stage) : bool :=
  match a, b with
  | Parsing, Parsing | Validation, Validation | Execution, Execution => true
  | _, _ => false
  end.

Definition isExtDidStart (stage : Stage) (e : Event) : bool :=
  match e with ExtDidStart s => sameStage stage s | _ => false end.

Definition isExtDidEnd (stage : Stage) (e : Event) : bool :=
  match e with ExtDidEnd s => sameStage stage s | _ => false end.

Definition isDispatchDidStart (stage : Stage) (e : Event) : bool :=
  match e with DispatchDidStart s => sameStage stage s | _ => false end.

Definition isDispatchDidEnd (stage : Stage) (e : Event) : bool :=
  match e with DispatchDidEnd s _ => sameStage stage s | _ => false end.

(** Every call but those to the cache. *)
Definition isOtherCall (e : Event) : bool := negb (isCacheEvent e).


(** A call of a listener's [willSendResponse]. *)
Definition isWillSendResponseCall (e : Event) : bool :=
  match e with ListenerHook _ WillSendResponse _ => true | _ => false end.

Definition isSetOperation (e : Event) : bool :=
  match e with SetOperation _ _ => true | _ => false end.


(** *** Stage events

    The boundaries of the stages as the extension stack, the dispatcher
    and the listeners see them, and the order the pipeline gives them. *)

Inductive StageMark : Type :=
| ParseEnd
| ValidateStart
| ValidateEnd
| OperationResolved
| ExecuteStart.

Definition rank (m : StageMark) : nat :=
  match m with
  | ParseEnd => 0
  | ValidateStart => 1
  | ValidateEnd => 2
  | OperationResolved => 3
  | ExecuteStart => 4
  end.

Definition stageMark (e : Event) : option StageMark :=
  match e with
  | ExtDidEnd Parsing | DispatchDidEnd Parsing _
  | ListenerDidEnd _ Parsing _ => Some ParseEnd
  | DispatchDidStart Validation | ListenerDidStart _ Validation
  | ExtDidStart Validation => Some ValidateStart
  | ExtDidEnd Validation | DispatchDidEnd Validation _
  | ListenerDidEnd _ Validation _ => Some ValidateEnd
  | SetOperation _ _ | DispatchHook DidResolveOperation
  | ListenerHook _ DidResolveOperation _ => Some OperationResolved
  | DispatchDidStart Execution | ListenerDidStart _ Execution
  | ExtDidStart Execution => Some ExecuteStart
  | _ => None
  end.

(** A monitor of the stage order: no stage event comes after an event of
    a later stage.  [current] is the rank of the latest stage seen. *)
Fixpoint ordered (current : nat) (l : list Event) : bool :=
  match l with
  | [] => true
  | e :: rest =>
      match stageMark e with
      | Some m => (current <=? rank m)%nat && ordered (rank m) rest
      | None => ordered current rest
      end
  end.

End Pipeline.

Arguments Ret {A} a.
Arguments Throw {A} e.
Arguments Fulfilled {A} a.
Arguments Rejected {A} e.

(** * A small engine and a few requests

    A stand-in for the collaborators, on which the pipeline can be run: a
    document is its query text, [parse] accepts the texts that open with a
    brace, [validate] throws on [{ crash }] and rejects the document that
    defers the non-nullable field [id], and [execute] fails on [{ boom }],
    defers on [{ slow @defer }] and answers every other document at
    once. *)

Module Fixture.

Definition parseText (q : string) : JSError + string :=
  match q with
  | String "{" _ => inr q
  | _ => inl (mkError GraphQLError "Syntax Error: Unexpected Name")
  end.

Definition validateText (doc : string) (rules : list string)
    : JSError + list JSError :=
  if String.eqb doc "{ crash }" then
    inl (mkError PlainError "Unknown type")
  else if String.eqb doc "{ id @defer }"
     && existsb (String.eqb "CannotDeferNonNullableFields") rules
  then
    inr [mkError GraphQLError "@defer cannot be applied on non-nullable field"]
  else inr [].

Definition executeText (args : ExecutionArgs unit string unit)
    : JSError + ExecutionOutcome :=
  if String.eqb (args_document args) "{ boom }" then
    inl (mkError GraphQLError "boom")
  else if String.eqb (args_document args) "{ slow @defer }" then
    inr (DeferredResult (<["data" := JObject ∅]> ∅)
           [mkPatch ["slow"] (JString "late") []])
  else inr (PlainResult (<["data" := JString "ok"]> ∅)).

#[export] Instance engine : Externals :=
  {| GraphQLSchema := unit;
     DocumentNode := string;
     OperationDefinitionNode := string;
     ValidationRule := string;
     FieldResolver := unit;
     CacheControlExtensionOptions := unit;
     graphql_parse := parseText;
     graphql_validate := fun _ => validateText;
     specifiedRules := ["ExecutableDefinitions"; "KnownTypeNames"];
     CannotDeferNonNullableFields := "CannotDeferNonNullableFields";
     getOperationAST := fun doc _ => Some doc;
     operation_name := fun _ => None;
     executeWithDefer := executeText;
     TracingExtension :=
       mkExtension "tracing" None (Some ("tracing", JObject ∅));
     CacheControlExtension :=
       fun _ => mkExtension "cacheControl" None None;
     host_property := fun _ _ => JUndefined |}.

(** A listener with every hook; its [didResolveOperation] rejects when
    [rejecting] is set. *)
Definition hookError : JSError := mkError (ApolloError "FORBIDDEN") "no".

Definition listener (rejecting : bool) : GraphQLRequestListener :=
  mkListener (Some (fun _ => true)) (Some (fun _ => true))
    (Some (fun _ => true))
    (Some (fun _ => if rejecting then Some hookError else None))
    (Some (fun _ => None)).

Definition plugin (rejecting : bool) : ApolloServerPlugin :=
  mkPlugin (Some (fun _ => Some (listener rejecting))).

Definition cacheError : JSError := mkError PlainError "cache down".

Definition reliableCache : KeyValueCache :=
  mkCache (fun _ _ => None) (fun _ _ => None).
Definition brokenCache : KeyValueCache :=
  mkCache (fun _ _ => None) (fun _ _ => Some cacheError).

Definition sources : list (string * DataSource) :=
  [("users", mkDataSource true); ("static", mkDataSource false);
   ("posts", mkDataSource true)].

Definition config (cache : option KeyValueCache) (rejecting : bool)
    (withSources : bool) : GraphQLRequestPipelineConfig :=
  mkConfig tt None (Some ["NoIntrospection"]) None
    (if withSources then Some (fun _ => sources) else None)
    None true
    (option_map (fun c => mkPersistedQueryOptions (Some c)) cache)
    None None
    (Some [mkPlugin None; plugin rejecting]) true.

(** The response the transport put on the context beforehand. *)
Definition transportResponse : GraphQLResponse :=
  <["http" := JString "headers"]> ∅.

Definition requestContextOf (query : option string)
    (hint : option PersistedQuery) (context : gmap string ContextValue)
    : GraphQLRequestContext :=
  mkRequestContext
    (mkRequest query None None
       (option_map (fun h => mkRequestExtensions (Some h)) hint) None)
    (Some (Complete transportResponse)) context None None None None.

Definition okHash : string :=
  "991699baaf03398aa334a75f133c0f259a70906e7405484c2c5218cf9fb61def".

(** The requests the claims are tried on. *)
Definition plainRequest (query : string) : GraphQLRequestContext :=
  requestContextOf (Some query) None ∅.

Definition registration (declared : string) : GraphQLRequestContext :=
  requestContextOf (Some "{ ok }") (Some (mkPersistedQuery 1 declared)) ∅.

Definition crowdedContext : GraphQLRequestContext :=
  requestContextOf (Some "{ ok }") None
    (<["dataSources" := UserValue JNull]> ∅).

(** The envelope that the deferred request is answered with. *)
Definition deferredEnvelope : DeferredGraphQLResponse :=
  match outcome (config None false false) (plainRequest "{ slow @defer }") ∅
  with
  | Fulfilled (Deferred envelope) => envelope
  | _ => mkDeferred ∅ [] RequestDidEndCallback (mkStack [])
  end.

End Fixture.

(** * Further requests

    A listener that rejects when the response is about to be sent, a
    request that carries a persisted-query hint alone, with a cache that
    knows the query, a request whose hint has another version, a cache
    whose [set] throws, and a [formatResponse] that gives every response
    the two fields of a deferred response. *)

Module Scenarios.

Import Fixture.

Definition lateError : JSError := mkError (ApolloError "LATE") "too late".

Definition lateListener : GraphQLRequestListener :=
  mkListener None None None None (Some (fun _ => Some lateError)).

Definition lateConfig : GraphQLRequestPipelineConfig :=
  mkConfig tt None None None None None false None None None
    (Some [mkPlugin (Some (fun _ => Some lateListener))]) false.

Definition lookup (declared : string) : GraphQLRequestContext :=
  requestContextOf None (Some (mkPersistedQuery 1 declared)) ∅.

Definition futureHint : GraphQLRequestContext :=
  requestContextOf (Some "{ ok }") (Some (mkPersistedQuery 2 okHash)) ∅.

Definition storedQuery : gmap string string :=
  <[String.append "apq:" okHash := "{ ok }"]> ∅.

(** A cache whose [set] throws instead of returning a promise. *)
Definition faultyCache : KeyValueCache :=
  mkCache (fun _ _ => Some cacheError) (fun _ _ => None).

Definition shapingConfig : GraphQLRequestPipelineConfig :=
  mkConfig tt None None None None None false None None
    (Some (fun response _ =>
             <["deferredPatches" := JNull]>
               (<["initialResponse" := JObject response]> ∅)))
    None false.

End Scenarios.

(** * Properties *)

Section Properties.

Context `{Externals}.

(** ** The code follows the runs *)

Ltac monad_unfold :=
  unfold bind, ret, throw, try_catch, try_finally, emit, emits, getRequestContext,
    setRequestContext, getStore, setStore, warnLater, await, async,
    async_returning in *.

Lemma awaitEach_eq hook targets : forall i rc st tr w,
  awaitEach hook i targets (mkState rc st tr w) =
    (match snd (hookCalls hook rc i targets) with
     | Some e => Throw e
     | None => Ret tt
     end,
     mkState rc st (tr ++ fst (hookCalls hook rc i targets)) w).
Proof.
  induction targets as [|l rest IH]; intros i rc st tr w; simpl.
  - monad_unfold. by rewrite app_nil_r.
  - destruct (asyncHook hook l) as [method|]; [|apply IH].
    monad_unfold. simpl.
    destruct (method rc) as [e|] eqn:E; simpl; [done|].
    rewrite IH. destruct (hookCalls hook rc (S i) rest) as [calls r]. simpl.
    by rewrite <- app_assoc.
Qed.

Lemma invokeHookAsync_eq hook d rc st tr w :
  invokeHookAsync d hook (mkState rc st tr w) =
    (match snd (hookCalls hook rc 0 d) with
     | Some e => Throw e
     | None => Ret tt
     end,
     mkState rc st (tr ++ DispatchHook hook :: fst (hookCalls hook rc 0 d)) w).
Proof.
  unfold invokeHookAsync. monad_unfold. simpl. rewrite awaitEach_eq.
  by rewrite <- app_assoc.
Qed.

Lemma invokeDidStartHook_eq d stage rc st tr w :
  invokeDidStartHook d stage (mkState rc st tr w) =
    (Ret (didEndHook stage (endsOf stage rc d)),
     mkState rc st (tr ++ startEvents stage rc d) w).
Proof.
  unfold invokeDidStartHook, endsOf, startEvents. monad_unfold. simpl.
  destruct (collectDidEnd stage rc 0 d) as [evs ends]. simpl.
  by rewrite <- app_assoc.
Qed.

Lemma didEndHook_eq stage ends errors rc st tr w :
  didEndHook stage ends errors (mkState rc st tr w) =
    (Ret tt, mkState rc st (tr ++ DispatchDidEnd stage errors ::
                              List.map (fun i => ListenerDidEnd i stage errors) ends) w).
Proof. unfold didEndHook. monad_unfold. simpl. by rewrite <- app_assoc. Qed.

Lemma parse_eq stack q rc st tr w :
  parse stack q (mkState rc st tr w) =
    (match graphql_parse q with inr d => Ret d | inl e => Throw e end,
     mkState rc st (tr ++ [ExtDidStart Parsing; EngineParse q (graphql_parse q); ExtDidEnd Parsing]) w).
Proof.
  unfold parse, stack_didStart. monad_unfold. simpl.
  destruct (graphql_parse q); simpl; by rewrite <- !app_assoc.
Qed.

Lemma validate_eq config stack doc rc st tr w :
  validate config stack doc (mkState rc st tr w) =
    (match graphql_validate (schema config) doc (validationRuleSet config)
     with
     | inr errors => Ret errors
     | inl thrown => Throw thrown
     end,
     mkState rc st (tr ++ [ExtDidStart Validation;
                          EngineValidate doc (validationRuleSet config)
                            (graphql_validate (schema config) doc (validationRuleSet config));
                          ExtDidEnd Validation]) w).
Proof.
  unfold validate, stack_didStart, validationRuleSet. monad_unfold. simpl.
  destruct (validationRules config); simpl; rewrite ?app_nil_r;
    destruct (graphql_validate _ _ _); simpl; rewrite <- ?app_assoc; done.
Qed.

Lemma execute_eq config stack doc name vars rc st tr w :
  execute config stack doc name vars (mkState rc st tr w) =
    (Ret (match executeWithDefer (executionArgs config rc doc name vars) with
          | inr r => Fulfilled r | inl e => Rejected e end),
     mkState rc st (tr ++ [ExtDidStart Execution;
                          EngineExecute (executionArgs config rc doc name vars)
                            (executeWithDefer (executionArgs config rc doc name vars));
                          ExtDidEnd Execution]) w).
Proof.
  unfold execute, stack_didStart. monad_unfold. simpl.
  destruct (executeWithDefer _); simpl; by rewrite <- !app_assoc.
Qed.

Local Arguments sendResponse : simpl never.
Local Arguments sendErrorResponse : simpl never.
Local Arguments didEndHook : simpl never.
Local Arguments invokeDidStartHook : simpl never.
Local Arguments invokeHookAsync : simpl never.
Local Arguments parse : simpl never.
Local Arguments validate : simpl never.
Local Arguments execute : simpl never.
Local Arguments stages : simpl never.
Local Arguments executeAndSend : simpl never.
Local Arguments resolveQuery : simpl never.

Lemma sendResponse_run stack d response rc st tr w :
  exists p rc' sent,
    sendResponse stack d response (mkState rc st tr w) = (Ret p, mkState rc' st (tr ++ sent) w)
    /\ SendRun stack d rc response p rc' sent.
Proof.
  unfold sendResponse, stack_willSendResponse, setResponse. monad_unfold.
  cbn [requestContext store trace consoleWarnings].
  destruct (isDeferredGraphQLResponse response) eqn:Hdeferred.
  - destruct (readFields _) as [unreadable|initial] eqn:Hread.
    + eexists _, _, _. split; [|eapply SendUnreadable; eauto].
      by rewrite app_nil_r.
    + eexists _, _, _. split; [|eapply SendDeferred; eauto].
      cbn [requestContext store trace consoleWarnings rc_response
             with_response].
      rewrite <- !app_assoc; reflexivity.
  - eexists _, _, _. split; [|eapply SendComplete; eauto].
    rewrite invokeHookAsync_eq.
    cbn [requestContext store trace consoleWarnings rc_response
           with_response].
    destruct (snd (hookCalls _ _ _ _));
      cbn [requestContext store trace consoleWarnings rc_response
             with_response];
      rewrite <- !app_assoc; reflexivity.
Qed.

Lemma sendErrorResponse_run stack d errs cls rc st tr w :
  exists p rc' sent,
    sendErrorResponse stack d errs cls (mkState rc st tr w) = (Ret p, mkState rc' st (tr ++ sent) w)
    /\ SendRun stack d rc
         (Complete (errorResponse
            (match errs with ErrorArray es => es | OneError e => [e] end) cls)) p rc' sent.
Proof. unfold sendErrorResponse. apply sendResponse_run. Qed.

Section RunsSound.

Variable config : GraphQLRequestPipelineConfig.
Variable stack : GraphQLExtensionStack.
Variable d : Dispatcher.
Variable request : GraphQLRequest.

Ltac finish_events :=
  unfold parseEvents, validateEvents, executeEvents, startEvents, endsOf, endEvents in *;
  repeat match goal with H : _ = _ |- _ => rewrite H end;
  f_equal; f_equal; repeat (rewrite <- !app_assoc; simpl); reflexivity.

Ltac mstep :=
  repeat first
    [ rewrite didEndHook_eq
    | rewrite invokeDidStartHook_eq
    | rewrite invokeHookAsync_eq
    | rewrite parse_eq
    | rewrite validate_eq
    | rewrite execute_eq
    | progress monad_unfold
    | progress cbn [requestContext store trace consoleWarnings fst snd isDeferredExecutionResult negb] ].

Lemma executeAndSend_run doc rc st tr w :
  exists p rc' es,
    executeAndSend config stack d request RequestDidEndCallback doc
      (didEndHook Execution (endsOf Execution rc d)) (mkState rc st tr w)
    = (Ret p, mkState rc' st (tr ++ es) w)
    /\ ExecutionRun config stack d request doc (endsOf Execution rc d) rc
         p rc' es.
Proof.
  unfold executeAndSend, stack_format. mstep.
  destruct (executeWithDefer _) as [e|[r|initial patches]] eqn:E; mstep.
  - edestruct sendErrorResponse_run as (p & rc' & sent & -> & Hsend).
    eexists _, _, _. split; [|eapply ExecutionFailure; eauto].
    finish_events.
  - edestruct sendResponse_run as (p & rc' & sent & -> & Hsend).
    eexists _, _, _. split; [|eapply PlainExecution; eauto].
    finish_events.
  - edestruct sendResponse_run as (p & rc' & sent & -> & Hsend).
    eexists _, _, _. split; [|eapply DeferredExecution; eauto].
    finish_events.
Qed.

Lemma stages_run q ends rc st tr w :
  exists r rc' es,
    stages config stack d request q RequestDidEndCallback (didEndHook Parsing ends)
      (mkState rc st tr w)
    = (r, mkState rc' st (tr ++ es) w)
    /\ StagesRun config stack d request q ends rc r rc' es.
Proof.
  unfold stages, setDocument, setOperation. mstep.
  destruct (graphql_parse q) as [e|doc] eqn:Hparse; mstep.
  - edestruct sendErrorResponse_run as (p & rc' & sent & -> & Hsend).
    eexists _, _, _. split; [|eapply SyntaxFailure; eauto].
    finish_events.
  - destruct (graphql_validate _ _ _) as [thrown|[|err errs]] eqn:Hvalid;
      mstep.
    + eexists _, _, _. split; [|eapply ValidationThrow; eauto].
      finish_events.
    + destruct (snd (hookCalls DidResolveOperation _ 0 d)) as [e|] eqn:Hcalls; mstep.
      * eexists _, _, _. split; [|eapply Validated; eauto; eapply HookRejection; eauto].
        finish_events.
      * edestruct executeAndSend_run as (p & rc' & es & -> & Hexec).
        eexists _, _, _. split;
          [|eapply Validated; eauto; eapply HooksResolved; eauto].
        finish_events.
    + edestruct sendErrorResponse_run as (p & rc' & sent & -> & Hsend).
      eexists _, _, _. split; [|eapply ValidationFailure; eauto; done].
      finish_events.
Qed.

End RunsSound.

Lemma initializeRequestListenerDispatcher_eq config rc st tr w :
  initializeRequestListenerDispatcher config (mkState rc st tr w) =
    (Ret (snd (pluginRun config rc)), mkState rc st (tr ++ fst (pluginRun config rc)) w).
Proof.
  unfold initializeRequestListenerDispatcher, pluginRun.
  destruct (plugins config) as [ps|]; monad_unfold; cbn [requestContext store trace consoleWarnings].
  - destruct (requestListeners rc 0 ps) as [evs ls]. reflexivity.
  - by rewrite app_nil_r.
Qed.

Lemma initializeDataSources_eq config rc st tr w :
  initializeDataSources config (mkState rc st tr w) =
    match dataSources config with
    | Some factory =>
        match rc_context rc !! "dataSources" with
        | Some _ => (Throw conflictError, mkState rc st (tr ++ dataSourceEvents config) w)
        | None =>
            (Ret tt,
             mkState (with_context rc (<["dataSources" := DataSourcesValue (factory tt)]>
                                         (rc_context rc)))
               st (tr ++ dataSourceEvents config) w)
        end
    | None => (Ret tt, mkState rc st (tr ++ dataSourceEvents config) w)
    end.
Proof.
  unfold initializeDataSources, dataSourceEvents, setContextValue.
  destruct (dataSources config) as [factory|]; monad_unfold; cbn [requestContext store trace consoleWarnings].
  - destruct (rc_context rc !! "dataSources"); reflexivity.
  - by rewrite app_nil_r.
Qed.

Lemma initialContext_dataSources config rc :
  rc_context (initialContext config rc) !! "dataSources" = rc_context rc !! "dataSources".
Proof. unfold initialContext. cbn. by rewrite lookup_insert_ne. Qed.

Lemma run_RequestRun config rc st :
  RequestRun config rc st (outcome config rc st) (snd (run config rc st)).
Proof.
  unfold outcome, run, processGraphQLRequest, initializeExtensionStack, setContextValue,
    setQueryHash, stack_requestDidStart, call.
  fold (requestStack config).
  monad_unfold. cbn [requestContext store trace consoleWarnings fst snd negb].
  fold (initialContext config rc).
  rewrite initializeRequestListenerDispatcher_eq. cbn [requestContext store trace consoleWarnings fst snd].
  rewrite initializeDataSources_eq, initialContext_dataSources.
  fold (requestDispatcher config rc).
  assert (Hev : (([] ++ [EnableGraphQLExtensions]) ++
                 fst (pluginRun config (initialContext config rc))) ++ dataSourceEvents config
                = initEvents config rc) by (unfold initEvents; by rewrite <- app_assoc).
  rewrite Hev. clear Hev.
  destruct (dataSources config) as [factory|] eqn:Hds;
    [destruct (rc_context rc !! "dataSources") as [v|] eqn:Hctx|].
  - cbn. eapply ConfigurationError; eauto.
  - assert (Hready : with_context (initialContext config rc)
              (<["dataSources" := DataSourcesValue (factory tt)]>
                 (rc_context (initialContext config rc))) = readyContext config rc)
      by (unfold readyContext; by rewrite Hds).
    rewrite Hready. clear Hready.
    cbn [requestContext store trace consoleWarnings fst snd].
    assert (Hreq : rc_request (readyContext config rc) = rc_request rc)
      by (unfold readyContext; rewrite Hds; reflexivity).
    rewrite Hreq.
    destruct (resolveQuery _ _ _) as [[[[[q hash] hit] reg]|e] s] eqn:Hres.
    + rewrite invokeDidStartHook_eq.
      edestruct stages_run as (r & rc' & es & -> & Hstages).
      cbn [requestContext store trace consoleWarnings fst snd].
      replace (((((trace s ++ [SetQueryHash hash]) ++ [ExtRequestDidStart hit reg]) ++
                 startEvents Parsing (with_queryHash (requestContext s) hash)
                   (requestDispatcher config rc)) ++ es) ++ [ExtRequestDidEnd])
        with (trace s ++ SetQueryHash hash :: ExtRequestDidStart hit reg ::
                startEvents Parsing (with_queryHash (requestContext s) hash)
                  (requestDispatcher config rc) ++ es ++ [ExtRequestDidEnd])
        by (repeat (rewrite <- !app_assoc; simpl); reflexivity).
      pose proof (Processed config rc st q hash hit reg s r rc' es
                    (or_intror Hctx) Hres Hstages) as HP.
      destruct r; exact HP.
    + cbn. eapply ResolutionError; eauto. by right.
  - assert (Hready : initialContext config rc = readyContext config rc)
      by (unfold readyContext; by rewrite Hds).
    rewrite Hready. clear Hready.
    cbn [requestContext store trace consoleWarnings fst snd].
    assert (Hreq : rc_request (readyContext config rc) = rc_request rc)
      by (unfold readyContext; rewrite Hds; reflexivity).
    rewrite Hreq.
    destruct (resolveQuery _ _ _) as [[[[[q hash] hit] reg]|e] s] eqn:Hres.
    + rewrite invokeDidStartHook_eq.
      edestruct stages_run as (r & rc' & es & -> & Hstages).
      cbn [requestContext store trace consoleWarnings fst snd].
      replace (((((trace s ++ [SetQueryHash hash]) ++ [ExtRequestDidStart hit reg]) ++
                 startEvents Parsing (with_queryHash (requestContext s) hash)
                   (requestDispatcher config rc)) ++ es) ++ [ExtRequestDidEnd])
        with (trace s ++ SetQueryHash hash :: ExtRequestDidStart hit reg ::
                startEvents Parsing (with_queryHash (requestContext s) hash)
                  (requestDispatcher config rc) ++ es ++ [ExtRequestDidEnd])
        by (repeat (rewrite <- !app_assoc; simpl); reflexivity).
      pose proof (Processed config rc st q hash hit reg s r rc' es
                    (or_introl Hds) Hres Hstages) as HP.
      destruct r; exact HP.
    + cbn. eapply ResolutionError; eauto. by left.
Qed.

(** ** Events of the parts of a run *)

Lemma filter_map_none {A} (p : Event -> bool) (f : A -> Event) (l : list A) :
  (forall x, p (f x) = false) -> List.filter p (List.map f l) = [].
Proof. intros Hp. induction l as [|x l IH]; simpl; [done|]. by rewrite Hp. Qed.

Lemma filter_collectDidEnd (p : Event -> bool) stage rc targets : forall i,
  (forall j, p (ListenerDidStart j stage) = false) ->
  List.filter p (fst (collectDidEnd stage rc i targets)) = [].
Proof.
  induction targets as [|l rest IH]; intros i Hp; simpl; [done|].
  specialize (IH (S i) Hp).
  destruct (collectDidEnd stage rc (S i) rest) as [evs ends].
  destruct (didStartHook stage l); simpl in *; [rewrite Hp|]; done.
Qed.

Lemma filter_hookCalls (p : Event -> bool) hook rc targets : forall i,
  (forall j r, p (ListenerHook j hook r) = false) ->
  List.filter p (fst (hookCalls hook rc i targets)) = [].
Proof.
  induction targets as [|l rest IH]; intros i Hp; simpl; [done|].
  destruct (asyncHook hook l) as [method|]; [|by apply IH].
  destruct (method rc) as [e|]; simpl; [by rewrite Hp|].
  specialize (IH (S i) Hp).
  destruct (hookCalls hook rc (S i) rest) as [calls r]. simpl in *. by rewrite Hp.
Qed.

Lemma hookCalls_rejection hook rc targets : forall i,
  match snd (hookCalls hook rc i targets) with
  | Some e =>
      exists j, List.filter (isRejection hook) (fst (hookCalls hook rc i targets))
                = [ListenerHook j hook (Some e)]
  | None => List.filter (isRejection hook) (fst (hookCalls hook rc i targets)) = []
  end.
Proof.
  induction targets as [|l rest IH]; intros i; simpl; [done|].
  destruct (asyncHook hook l) as [method|]; [|by apply IH].
  destruct (method rc) as [e|]; simpl.
  - exists i. by destruct hook.
  - specialize (IH (S i)).
    destruct (hookCalls hook rc (S i) rest) as [calls r]. simpl in *.
    by destruct hook.
Qed.

Ltac resolve_cases H :=
  unfold resolveQuery, cache_get, cache_set, catch_console_warn in H;
  repeat match type of H with
         | context [match ?x with _ => _ end] => destruct x eqn:?
         | context [if ?x then _ else _] => destruct x eqn:?
         end;
  monad_unfold; cbn [requestContext store trace consoleWarnings fst snd] in H;
  repeat match type of H with
         | context [match ?x with _ => _ end] => destruct x eqn:?
         | context [if ?x then _ else _] => destruct x eqn:?
         end;
  cbn [requestContext store trace consoleWarnings fst snd] in H.

Lemma resolveQuery_frame config request rc st tr w r s :
  resolveQuery config request (mkState rc st tr w) = (r, s) ->
  requestContext s = rc /\
  exists es, trace s = tr ++ es /\ Forall (fun e => isCacheEvent e = true) es.
Proof.
  intros Hres. resolve_cases Hres; inversion Hres; subst; cbn [requestContext trace consoleWarnings];
    (split; [reflexivity|]); rewrite <- ?app_assoc;
    first [ by exists []; rewrite app_nil_r
          | eexists; split; [reflexivity|]; repeat constructor ].
Qed.

Lemma filter_pluginRun (p : Event -> bool) config rc :
  (forall i, p (PluginRequestDidStart i) = false) ->
  List.filter p (fst (pluginRun config rc)) = [].
Proof.
  intros Hp. unfold pluginRun. destruct (plugins config) as [ps|]; [|done].
  generalize 0. induction ps as [|plugin rest IH]; intros i; simpl; [done|].
  specialize (IH (S i)).
  destruct (requestListeners rc (S i) rest) as [evs ls].
  destruct (requestDidStart plugin); simpl in *; [rewrite Hp|]; done.
Qed.

Lemma filter_dataSourceEvents (p : Event -> bool) config :
  (forall name, p (DataSourceInitialize name) = false) ->
  List.filter p (dataSourceEvents config) = [].
Proof.
  intros Hp. unfold dataSourceEvents.
  destruct (dataSources config); [|done]. by apply filter_map_none.
Qed.

Lemma filter_cacheEvents (p : Event -> bool) es :
  Forall (fun e => isCacheEvent e = true) es ->
  (forall e, isCacheEvent e = true -> p e = false) ->
  List.filter p es = [].
Proof.
  intros Hes Hp. induction Hes as [|e es He _ IH]; simpl; [done|].
  by rewrite (Hp e He).
Qed.

(** The events of a run, for the case analysis of a claim. *)
Ltac run_cases config rc st :=
  unfold events, finalContext, finalStore;
  generalize (run_RequestRun config rc st);
  generalize (outcome config rc st) (snd (run config rc st));
  let Hrun := fresh "Hrun" in
  intros ? ? Hrun; inversion Hrun; subst; clear Hrun.

Lemma errorResponse_is_complete errors errorClass :
  isDeferredGraphQLResponse (Complete (errorResponse errors errorClass))
  = false.
Proof.
  unfold isDeferredGraphQLResponse, errorResponse, prop, fieldsOf.
  rewrite lookup_insert_ne by done. by rewrite lookup_empty.
Qed.

Lemma envelope_is_deferred envelope :
  isDeferredGraphQLResponse (Deferred envelope) = true.
Proof.
  unfold isDeferredGraphQLResponse, prop, fieldsOf.
  rewrite !lookup_insert_ne by done. rewrite lookup_insert_eq.
  rewrite lookup_insert_ne by done. rewrite !lookup_insert_ne by done.
  by rewrite lookup_insert_eq.
Qed.

Lemma envelope_initialResponse envelope :
  readFields (prop (fieldsOf (Deferred envelope)) "initialResponse")
  = inr (d_initialResponse envelope).
Proof.
  unfold prop, fieldsOf.
  rewrite !lookup_insert_ne by done. by rewrite lookup_insert_eq.
Qed.

(** The branch of [sendResponse] is known for an error response and for
    the envelope of lines 283-288. *)
Ltac known_branch :=
  repeat match goal with
         | H : isDeferredGraphQLResponse (Complete (errorResponse _ _)) = true
           |- _ => by rewrite errorResponse_is_complete in H
         | H : isDeferredGraphQLResponse (Deferred _) = false |- _ =>
             by rewrite envelope_is_deferred in H
         | H : readFields (prop (fieldsOf (Deferred _)) "initialResponse")
               = inl _ |- _ =>
             by rewrite envelope_initialResponse in H
         | H : readFields (prop (fieldsOf (Deferred _)) "initialResponse")
               = inr _ |- _ =>
             rewrite envelope_initialResponse in H;
             injection H as H; try subst
         end.

Ltac invert_runs :=
  repeat match goal with
         | H : StagesRun _ _ _ _ _ _ _ _ _ _ |- _ => inversion H; subst; clear H
         | H : OperationRun _ _ _ _ _ _ _ _ _ |- _ => inversion H; subst; clear H
         | H : ExecutionRun _ _ _ _ _ _ _ _ _ _ |- _ => inversion H; subst; clear H
         | H : SendRun _ _ _ _ _ _ _ |- _ =>
             inversion H; subst; clear H; known_branch
         end;
  cbn [requestContext store trace consoleWarnings fieldsOf] in *.

Ltac resolved_state :=
  match goal with
  | H : resolveQuery _ _ (mkState _ _ _ _) = (_, ?s) |- _ =>
      let Hrc := fresh "Hrc" in
      let es := fresh "cached" in
      let Htr := fresh "Htr" in
      let Hes := fresh "Hcached" in
      destruct (resolveQuery_frame _ _ _ _ _ _ _ _ H)
        as (Hrc & es & Htr & Hes);
      destruct s as [? ? ? ?];
      cbn [trace consoleWarnings requestContext store] in Hrc, Htr |- *;
      subst
  end.

Ltac no_such := intros; reflexivity.

Ltac filters :=
  unfold count, initEvents, parseEvents, validateEvents, executeEvents,
    startEvents, endEvents;
  repeat first
    [ rewrite List.filter_app
    | match goal with
      | |- context [List.filter ?p (List.map ?f ?l)] =>
          rewrite (filter_map_none p f l) by no_such
      | |- context [List.filter ?p (fst (collectDidEnd ?stage ?c ?i ?d))] =>
          rewrite (filter_collectDidEnd p stage c d i) by no_such
      | |- context [List.filter ?p (fst (hookCalls ?hook ?c ?i ?d))] =>
          rewrite (filter_hookCalls p hook c d i) by no_such
      | |- context [List.filter ?p (fst (pluginRun ?config ?c))] =>
          rewrite (filter_pluginRun p config c) by no_such
      | |- context [List.filter ?p (dataSourceEvents ?config)] =>
          rewrite (filter_dataSourceEvents p config) by no_such
      | Hc : Forall (fun e => isCacheEvent e = true) ?es
        |- context [List.filter ?p ?es] =>
          rewrite (filter_cacheEvents p es Hc) by (by intros [])
      end
    | progress cbn [List.filter app List.length trace consoleWarnings
                      requestContext store
                      isDispatchWillSend isExtWillSend isSetResponse
                      isRequestDidStart isRequestDidEnd isCacheSet
                      isSetQueryHash isDataSourceInitialize
                      isEngineParse isEngineValidate isExecutionEvent
                      isRejection isCacheEvent isEngineExecute] ].

Lemma rc_response_ready config rc :
  rc_response (readyContext config rc) = rc_response rc.
Proof. unfold readyContext. by destruct (dataSources config). Qed.

Lemma overwrite_errors (base r : GraphQLResponse) :
  overwrite base r !! "errors" = Some (prop r "errors").
Proof.
  unfold overwrite.
  rewrite lookup_insert_ne by done. rewrite lookup_insert_ne by done.
  by rewrite lookup_insert_eq.
Qed.

Lemma overwrite_data (base r : GraphQLResponse) :
  overwrite base r !! "data" = Some (prop r "data").
Proof.
  unfold overwrite.
  rewrite lookup_insert_ne by done. by rewrite lookup_insert_eq.
Qed.



(** ** The claims *)

Lemma rc_request_ready config rc :
  rc_request (readyContext config rc) = rc_request rc.
Proof. unfold readyContext. by destruct (dataSources config). Qed.

Lemma rc_queryHash_ready config rc :
  rc_queryHash (readyContext config rc) = rc_queryHash rc.
Proof. unfold readyContext. by destruct (dataSources config). Qed.

Lemma rc_document_ready config rc :
  rc_document (readyContext config rc) = rc_document rc.
Proof. unfold readyContext. by destruct (dataSources config). Qed.

Lemma rc_operation_ready config rc :
  rc_operation (readyContext config rc) = rc_operation rc.
Proof. unfold readyContext. by destruct (dataSources config). Qed.

Ltac final_context :=
  cbn [rc_request rc_response rc_context rc_queryHash rc_document
         rc_operation rc_operationName with_response with_operation
         with_document with_queryHash with_context resolved requestContext];
  rewrite ?rc_request_ready, ?rc_response_ready, ?rc_queryHash_ready,
    ?rc_document_ready, ?rc_operation_ready.




Lemma thread_willSendResponse_without_hooks stack g :
  Forall (fun ext => ext_willSendResponse ext = None)
    (stack_extensions stack) ->
  thread_willSendResponse stack g = g.
Proof.
  unfold thread_willSendResponse. intros Hnone. revert g.
  induction Hnone as [|ext exts Hext _ IH]; intros g; simpl; [done|].
  rewrite Hext. apply IH.
Qed.

Lemma validationRuleSet_eq config :
  validationRuleSet config
  = specifiedRules ++ [CannotDeferNonNullableFields]
      ++ default [] (validationRules config).
Proof. unfold validationRuleSet. by rewrite <- app_assoc. Qed.

Ltac in_filter Hin p :=
  match type of Hin with
  | In ?e ?l =>
      let Hf := fresh in
      assert (Hf : In e (List.filter p l))
        by (apply List.filter_In; split; [exact Hin | reflexivity]);
      clear Hin; rename Hf into Hin
  end.

(** C7.  Once a document is parsed, the engine's [validate] runs exactly
    once, with the rule set made of the engine's rules, then
    [CannotDeferNonNullableFields], then the custom rules of the
    configuration.  When it returns errors, no event of the execute stage
    occurs, and the response that is sent carries these errors with class
    [ValidationError]; the promise is fulfilled with it unless a
    listener's [willSendResponse] rejects.  When it throws, nothing
    catches that (line 210): the promise rejects with what was thrown, and
    nothing is executed or sent. *)
Theorem validation_rules_and_failure config rc st q doc :
  In (EngineParse q (inr doc)) (events config rc st) ->
  let rules :=
    specifiedRules ++ [CannotDeferNonNullableFields]
      ++ default [] (validationRules config) in
  let result := graphql_validate (schema config) doc rules in
  List.filter isEngineValidate (events config rc st)
    = [EngineValidate doc rules result] /\
  match result with
  | inr [] => True
  | inr (error :: others) =>
      let errors := error :: others in
      let response :=
        overwrite (spread_response (rc_response rc))
          (errorResponse errors (Some ValidationError)) in
      let sent :=
        Complete (thread_willSendResponse (requestStack config) response) in
      count isExecutionEvent (events config rc st) = 0 /\
      List.filter isExtWillSend (events config rc st)
        = [ExtWillSendResponse response] /\
      response !! "errors"
        = Some (JErrors
                  (List.map
                     (fun e => mkError ValidationError (errMessage e))
                     errors)) /\
      rc_response (finalContext config rc st) = Some sent /\
      (outcome config rc st = Fulfilled sent \/
       exists e,
         outcome config rc st = Rejected e /\
         count (isRejection WillSendResponse) (events config rc st) = 1)
  | inl thrown =>
      outcome config rc st = Rejected thrown /\
      count isExecutionEvent (events config rc st) = 0 /\
      count isExtWillSend (events config rc st) = 0
  end.
Proof.
  intros Hin. rewrite <- validationRuleSet_eq. cbv zeta.
  revert Hin. run_cases config rc st; intros Hin.
  - in_filter Hin isEngineParse. revert Hin. filters. done.
  - resolved_state. in_filter Hin isEngineParse. revert Hin. filters. done.
  - resolved_state. in_filter Hin isEngineParse. revert Hin.
    invert_runs; filters; intros [Hin|[]]; injection Hin as -> Hdoc;
      try congruence;
      rewrite Hdoc in *;
      match goal with
      | Hp : inr _ = inr _ |- _ => injection Hp as ->
      end;
      (split; [reflexivity|]);
      match goal with
      | Hv : graphql_validate _ _ _ = _ |- _ => rewrite Hv
      end; try done.
    (* validation errors *)
    destruct errs as [|err errs]; [done|].
    cbn [with_queryHash with_document with_response rc_response].
    rewrite rc_response_ready.
    split; [reflexivity|]. split; [reflexivity|].
    split; [by rewrite overwrite_errors|].
    split; [reflexivity|].
    match goal with
    | |- context [snd (hookCalls WillSendResponse ?c 0 ?d)] =>
        pose proof (hookCalls_rejection WillSendResponse c d 0) as Hrej;
        destruct (snd (hookCalls WillSendResponse c 0 d)) as [e|]
    end.
    + right. exists e. split; [reflexivity|].
      destruct Hrej as [j Hj]. by rewrite Hj.
    + by left.
Qed.

(** *** The stage order *)

Lemma Forall_map_event {A} (P : Event -> Prop) (f : A -> Event) (l : list A) :
  (forall x, P (f x)) -> Forall P (List.map f l).
Proof. intros HP. induction l; simpl; constructor; auto. Qed.

Lemma Forall_collectDidEnd (P : Event -> Prop) stage rc targets : forall i,
  (forall j, P (ListenerDidStart j stage)) ->
  Forall P (fst (collectDidEnd stage rc i targets)).
Proof.
  induction targets as [|l rest IH]; intros i HP; simpl; [constructor|].
  specialize (IH (S i) HP).
  destruct (collectDidEnd stage rc (S i) rest) as [evs ends].
  destruct (didStartHook stage l); simpl in *; [constructor|]; auto.
Qed.

Lemma Forall_hookCalls (P : Event -> Prop) hook rc targets : forall i,
  (forall j r, P (ListenerHook j hook r)) ->
  Forall P (fst (hookCalls hook rc i targets)).
Proof.
  induction targets as [|l rest IH]; intros i HP; simpl; [constructor|].
  destruct (asyncHook hook l) as [method|]; [|by apply IH].
  destruct (method rc) as [e|]; simpl; [by repeat constructor|].
  specialize (IH (S i) HP).
  destruct (hookCalls hook rc (S i) rest) as [calls r]. simpl in *.
  constructor; auto.
Qed.

Lemma Forall_pluginRun (P : Event -> Prop) config rc :
  (forall i, P (PluginRequestDidStart i)) ->
  Forall P (fst (pluginRun config rc)).
Proof.
  intros HP. unfold pluginRun.
  destruct (plugins config) as [ps|]; [|constructor].
  generalize 0. induction ps as [|plugin rest IH]; intros i; simpl;
    [constructor|].
  specialize (IH (S i)).
  destruct (requestListeners rc (S i) rest) as [evs ls].
  destruct (requestDidStart plugin); simpl in *; [constructor|]; auto.
Qed.

Lemma Forall_dataSourceEvents (P : Event -> Prop) config :
  (forall name, P (DataSourceInitialize name)) ->
  Forall P (dataSourceEvents config).
Proof.
  intros HP. unfold dataSourceEvents.
  destruct (dataSources config); [|constructor]. by apply Forall_map_event.
Qed.

Lemma Forall_cacheEvents (P : Event -> Prop) es :
  Forall (fun e => isCacheEvent e = true) es ->
  (forall e, isCacheEvent e = true -> P e) ->
  Forall P es.
Proof.
  intros Hes HP. induction Hes as [|e es He _ IH]; constructor; auto.
Qed.

Lemma ordered_mono l : forall k k',
  k' <= k -> ordered k l = true -> ordered k' l = true.
Proof.
  induction l as [|e rest IH]; intros k k' Hle; simpl; [done|].
  destruct (stageMark e) as [m|]; [|by apply IH].
  rewrite !andb_true_iff, !Nat.leb_le. intros [Hk Hrest]. split; [lia|done].
Qed.

Lemma ordered_uniform (o : option StageMark) seg rest k :
  Forall (fun e => stageMark e = o) seg ->
  match o with
  | Some m => k <= rank m /\ ordered (rank m) rest = true
  | None => ordered k rest = true
  end ->
  ordered k (seg ++ rest) = true.
Proof.
  intros Hseg. revert k.
  induction Hseg as [|e seg He _ IH]; intros k Hrest; simpl.
  - destruct o as [m|]; [|done].
    destruct Hrest as [Hk Hrest]. by apply (ordered_mono rest (rank m)).
  - rewrite He. destruct o as [m|]; [|by apply IH].
    destruct Hrest as [Hk Hrest].
    rewrite andb_true_iff, Nat.leb_le. split; [done|]. apply IH. split; [lia|done].
Qed.

Lemma ordered_lower_bound l : forall k e m,
  ordered k l = true -> In e l -> stageMark e = Some m -> k <= rank m.
Proof.
  induction l as [|x rest IH]; intros k e m Hord Hin Hm; [done|].
  simpl in Hord. destruct Hin as [->|Hin].
  - rewrite Hm in Hord. apply andb_true_iff in Hord as [Hk _].
    by apply Nat.leb_le.
  - destruct (stageMark x) as [mx|].
    + apply andb_true_iff in Hord as [Hk Hrest]. apply Nat.leb_le in Hk.
      specialize (IH _ _ _ Hrest Hin Hm). lia.
    + eauto.
Qed.

Lemma ordered_pairwise pre : forall k e1 mid e2 post m1 m2,
  ordered k (pre ++ e1 :: mid ++ e2 :: post) = true ->
  stageMark e1 = Some m1 -> stageMark e2 = Some m2 ->
  rank m1 <= rank m2.
Proof.
  induction pre as [|x pre IH]; intros k e1 mid e2 post m1 m2 Hord H1 H2.
  - simpl in Hord. rewrite H1 in Hord.
    apply andb_true_iff in Hord as [_ Hrest].
    eapply ordered_lower_bound; eauto. apply in_or_app. right. by left.
  - simpl in Hord. destruct (stageMark x).
    + apply andb_true_iff in Hord as [_ Hrest]. eauto.
    + eauto.
Qed.

Lemma cacheEvent_unmarked e : isCacheEvent e = true -> stageMark e = None.
Proof. by destruct e. Qed.

Ltac segment_marks :=
  first
    [ apply Forall_collectDidEnd
    | apply Forall_hookCalls
    | apply Forall_map_event
    | apply Forall_pluginRun
    | apply Forall_dataSourceEvents
    | eapply Forall_cacheEvents; [eassumption | apply cacheEvent_unmarked] ];
  intros; cbn; reflexivity.

Ltac ordered_steps :=
  repeat first
    [ reflexivity
    | progress cbn [ordered stageMark rank Nat.leb andb app]
    | eapply ordered_uniform;
      [ segment_marks
      | cbv beta iota; try (split; [cbn [rank]; lia|]) ] ].

Ltac normalize_events :=
  unfold initEvents, parseEvents, validateEvents, executeEvents,
    startEvents, endEvents;
  cbn [trace consoleWarnings requestContext store];
  match goal with
  | |- context [ordered ?k ?l] => rewrite <- (app_nil_r l)
  end;
  repeat first [rewrite <- app_assoc | progress cbn [app]].

Lemma run_ordered config rc st : ordered 0 (events config rc st) = true.
Proof.
  run_cases config rc st.
  - normalize_events. ordered_steps.
  - resolved_state. normalize_events. ordered_steps.
  - resolved_state. invert_runs; normalize_events; ordered_steps.
Qed.

Lemma split_at_two (l : list Event) i j e1 e2 :
  j < i -> l !! j = Some e2 -> l !! i = Some e1 ->
  exists pre mid post, l = pre ++ e2 :: mid ++ e1 :: post.
Proof.
  intros Hlt Hj Hi.
  pose proof (take_drop_middle l j e2 Hj) as Hsplit.
  assert (Hi' : drop (S j) l !! (i - S j) = Some e1).
  { rewrite lookup_drop. replace (S j + (i - S j)) with i by lia. done. }
  pose proof (take_drop_middle _ _ _ Hi') as Hsplit'.
  exists (take j l), (take (i - S j) (drop (S j) l)),
    (drop (S (i - S j)) (drop (S j) l)).
  rewrite Hsplit'. by rewrite Hsplit.
Qed.

Ltac find_in :=
  repeat first [rewrite <- app_assoc | progress cbn [app]];
  solve [ repeat first
            [ left; reflexivity
            | right
            | apply in_or_app; right ] ].

(** C9.  In a request that reaches the execute stage, every stage event
    of an earlier stage comes before every stage event of a later stage,
    in the order parse-end, validate-start, validate-end, operation
    resolution, execute-start; and events of all five kinds occur. *)
Theorem stage_events_in_order config rc st :
  In (DispatchDidStart Execution) (events config rc st) ->
  (forall i j e1 e2 m1 m2,
     events config rc st !! i = Some e1 ->
     events config rc st !! j = Some e2 ->
     stageMark e1 = Some m1 -> stageMark e2 = Some m2 ->
     rank m1 < rank m2 -> i < j) /\
  (forall m, exists e, In e (events config rc st) /\ stageMark e = Some m).
Proof.
  intros Hin. split.
  - intros i j e1 e2 m1 m2 Hi Hj H1 H2 Hlt.
    destruct (Nat.lt_trichotomy i j) as [Hij|[Hij|Hij]]; [done| |].
    + subst j. rewrite Hi in Hj. injection Hj as ->.
      rewrite H1 in H2. injection H2 as ->. lia.
    + destruct (split_at_two _ _ _ _ _ Hij Hj Hi) as (pre & mid & post & Heq).
      pose proof (run_ordered config rc st) as Hord. rewrite Heq in Hord.
      pose proof (ordered_pairwise _ _ _ _ _ _ _ _ Hord H2 H1). lia.
  - revert Hin. run_cases config rc st; intros Hin.
    + in_filter Hin isExecutionEvent. revert Hin. filters. done.
    + resolved_state. in_filter Hin isExecutionEvent. revert Hin. filters. done.
    + resolved_state. in_filter Hin isExecutionEvent. revert Hin.
      invert_runs; filters; try done; intros _;
        unfold parseEvents, validateEvents, executeEvents, startEvents,
          endEvents;
        (intros [| | | |];
         [ exists (ExtDidEnd Parsing)
         | exists (DispatchDidStart Validation)
         | exists (ExtDidEnd Validation)
         | eexists (SetOperation _ _)
         | exists (DispatchDidStart Execution) ];
         (split; [find_in | reflexivity])).
Qed.

Ltac rejections hook :=
  repeat match goal with
         | |- context [List.filter (isRejection hook)
                         (fst (hookCalls hook ?c 0 ?d))] =>
             let Hrej := fresh "Hrej" in
             pose proof (hookCalls_rejection hook c d 0) as Hrej;
             first
               [ match goal with
                 | Hs : snd (hookCalls hook c 0 d) = _ |- _ =>
                     rewrite Hs in Hrej
                 end
               | destruct (snd (hookCalls hook c 0 d)) eqn:? ];
             first [ rewrite Hrej
                   | let j := fresh "j" in destruct Hrej as [j ->] ]
         end.

Lemma snoc_nil {A} (y : A) : [y] = [] ++ [y].
Proof. reflexivity. Qed.

Lemma snoc_cons {A} (x y : A) l before :
  l = before ++ [y] -> x :: l = (x :: before) ++ [y].
Proof. by intros ->. Qed.

Lemma snoc_app {A} (y : A) s l before :
  l = before ++ [y] -> s ++ l = (s ++ before) ++ [y].
Proof. intros ->. by rewrite app_assoc. Qed.

Ltac ends_with_requestDidEnd :=
  cbn [trace consoleWarnings];
  repeat first [rewrite <- app_assoc | progress cbn [app]];
  eexists; split;
    [ repeat first [apply snoc_nil | apply snoc_cons | apply snoc_app] |].

(** C3, as the code has it.  When a listener's [didResolveOperation]
    rejects with [e], the promise of [processGraphQLRequest] rejects with
    [e]: the orchestrator sends no response (neither [willSendResponse] is
    invoked and the response of the context stays as it was), the execute
    stage does not start, so that no execution end callback exists to be
    told of the error; the cleanup block runs [requestDidEnd] last. *)
Theorem didResolveOperation_rejection_propagates config rc st i e :
  In (ListenerHook i DidResolveOperation (Some e)) (events config rc st) ->
  outcome config rc st = Rejected e /\
  count isExtWillSend (events config rc st) = 0 /\
  count isDispatchWillSend (events config rc st) = 0 /\
  count isSetResponse (events config rc st) = 0 /\
  count isExecutionEvent (events config rc st) = 0 /\
  rc_response (finalContext config rc st) = rc_response rc /\
  exists before,
    events config rc st = before ++ [ExtRequestDidEnd] /\
    count isRequestDidEnd before = 0.
Proof.
  intros Hin. revert Hin. run_cases config rc st; intros Hin.
  - in_filter Hin (isRejection DidResolveOperation). revert Hin. filters. done.
  - resolved_state. in_filter Hin (isRejection DidResolveOperation).
    revert Hin. filters. done.
  - resolved_state. in_filter Hin (isRejection DidResolveOperation).
    revert Hin.
    invert_runs; filters; rejections DidResolveOperation;
      cbn [List.filter app]; try done.
    intros [Hin|[]]. injection Hin as <- <-.
    cbn [resolved with_operation with_document with_queryHash rc_response].
    rewrite rc_response_ready.
    repeat (split; [reflexivity|]).
    ends_with_requestDidEnd. filters. reflexivity.
Qed.

(** Whatever the outcome, the cleanup block invokes [requestDidEnd] once
    the request scope was opened: the two events occur equally often, at
    most once. *)
Lemma requestDidEnd_whenever_started config rc st :
  count isRequestDidEnd (events config rc st)
  = count isRequestDidStart (events config rc st) /\
  count isRequestDidStart (events config rc st) <= 1.
Proof.
  run_cases config rc st.
  - filters. simpl. lia.
  - resolved_state. filters. simpl. lia.
  - resolved_state. invert_runs; filters; simpl; lia.
Qed.

(** C2, at a deferred outcome: [requestDidEnd] has been invoked by the
    cleanup block, as the last event before [processGraphQLRequest]
    returns, although the envelope carries the same callback for the end
    of the patch stream. *)
Theorem deferred_outcome_ends_request_in_cleanup config rc st dr :
  outcome config rc st = Fulfilled (Deferred dr) ->
  d_requestDidEnd dr = RequestDidEndCallback /\
  exists before,
    events config rc st = before ++ [ExtRequestDidEnd] /\
    count isRequestDidEnd before = 0.
Proof.
  run_cases config rc st; [discriminate|discriminate|].
  resolved_state.
  invert_runs; cbv beta iota;
    try match goal with
        | |- context [snd (hookCalls WillSendResponse ?c 0 ?d)] =>
            destruct (snd (hookCalls WillSendResponse c 0 d))
        end;
    try discriminate.
  intros Hout. injection Hout as <-. split; [reflexivity|].
  ends_with_requestDidEnd. filters. reflexivity.
Qed.

(** C10.  With [config.dataSources] supplied and a [dataSources] property
    already on the user context, the promise rejects with the
    configuration error after [initialize] was invoked on every supplied
    data source that has it, in order; these calls are the last events,
    the user context has gained [_extensionStack] and nothing else
    changed. *)
Theorem dataSources_conflict_after_initialize config rc st factory v :
  dataSources config = Some factory ->
  rc_context rc !! "dataSources" = Some v ->
  let initialized :=
    List.map (fun entry => DataSourceInitialize (fst entry))
      (List.filter (fun entry => ds_hasInitialize (snd entry))
         (factory tt)) in
  outcome config rc st = Rejected conflictError /\
  (exists before,
     events config rc st = before ++ initialized /\
     count isDataSourceInitialize before = 0) /\
  (forall name ds,
     In (name, ds) (factory tt) -> ds_hasInitialize ds = true ->
     In (DataSourceInitialize name) (events config rc st)) /\
  finalContext config rc st = initialContext config rc /\
  finalStore config rc st = st.
Proof.
  intros Hds Hctx. cbv zeta.
  run_cases config rc st;
    try match goal with
        | Hno : noDataSourceConflict _ _ |- _ =>
            destruct Hno; congruence
        end.
  cbn [trace consoleWarnings requestContext store]. split; [reflexivity|].
  unfold initEvents, dataSourceEvents. rewrite Hds.
  split; [|split; [|done]].
  - eexists (_ :: _). split; [by rewrite app_comm_cons|].
    filters. reflexivity.
  - intros name ds Hin Hinit. right. apply in_or_app. right.
    apply in_map_iff. exists (name, ds). split; [reflexivity|].
    apply List.filter_In. done.
Qed.

Lemma resolveQuery_failure config request rc st tr w e :
  resolutionFailure config request st = Some e ->
  fst (resolveQuery config request (mkState rc st tr w)) = Throw e.
Proof.
  unfold resolveQuery, resolutionFailure, cache_get, cache_set,
    catch_console_warn.
  monad_unfold. cbn [requestContext store trace consoleWarnings].
  repeat match goal with
         | |- context [match ?x with _ => _ end] =>
             lazymatch x with
             | context [match _ with _ => _ end] => fail
             | _ => destruct x eqn:?
             end
         end;
    cbn [requestContext store trace consoleWarnings negb fst] in *;
    intros; congruence.
Qed.

(** C1, as the code has it.  A failure of the query-resolution stage is
    thrown: the promise of [processGraphQLRequest] rejects with the error
    of that failure.  No response is built or sent, the response of the
    context stays as it was, and the request scope of the extension stack
    is not opened. *)
Theorem resolution_failure_rejects config rc st e :
  noDataSourceConflict config rc ->
  resolutionFailure config (rc_request rc) st = Some e ->
  outcome config rc st = Rejected e /\
  count isExtWillSend (events config rc st) = 0 /\
  count isDispatchWillSend (events config rc st) = 0 /\
  count isSetResponse (events config rc st) = 0 /\
  count isRequestDidStart (events config rc st) = 0 /\
  rc_response (finalContext config rc st) = rc_response rc.
Proof.
  intros Hno Hfail.
  run_cases config rc st.
  - destruct Hno; congruence.
  - match goal with
    | Hres : resolveQuery _ _ _ = _ |- _ =>
        pose proof (resolveQuery_failure config (rc_request rc)
                      (readyContext config rc) st (initEvents config rc) []
                      e Hfail) as Hspec;
        rewrite Hres in Hspec
    end.
    injection Hspec as ->.
    resolved_state. rewrite rc_response_ready.
    split; [reflexivity|]. filters. done.
  - match goal with
    | Hres : resolveQuery _ _ _ = _ |- _ =>
        pose proof (resolveQuery_failure config (rc_request rc)
                      (readyContext config rc) st (initEvents config rc) []
                      e Hfail) as Hspec;
        rewrite Hres in Hspec
    end.
    discriminate.
Qed.

Lemma resolveQuery_plain config request rc st tr w q :
  req_query request = Some q ->
  req_extensions request ≫= persistedQuery = None ->
  resolveQuery config request (mkState rc st tr w)
  = if truthy q then
      (Ret (q, computeQueryHash q, false, false), mkState rc st tr w)
    else
      (Throw (InvalidGraphQLRequest "Must provide query string."),
       mkState rc st tr w).
Proof.
  intros Hq Hext. unfold resolveQuery. rewrite Hq, Hext.
  by destruct (truthy q).
Qed.

Lemma resolveQuery_register config request rc st tr w cache hint q :
  persistedQueries config ≫= pq_cache = Some cache ->
  req_extensions request ≫= persistedQuery = Some hint ->
  version hint = 1%Z ->
  req_query request = Some q ->
  let key := String.append "apq:" (sha256Hash hint) in
  resolveQuery config request (mkState rc st tr w)
  = if String.eqb (sha256Hash hint) (computeQueryHash q) then
      match cache_set_throws cache key q with
      | Some thrown =>
          (Throw thrown, mkState rc st (tr ++ [CacheSetThrow key q thrown]) w)
      | None =>
          match cache_set_failure cache key q with
          | Some err =>
              (Ret (q, sha256Hash hint, false, true),
               mkState rc st (tr ++ [CacheSet key q (Some err)])
                 (w ++ [err]))
          | None =>
              (Ret (q, sha256Hash hint, false, true),
               mkState rc (<[key := q]> st) (tr ++ [CacheSet key q None]) w)
          end
      end
    else
      (Throw (InvalidGraphQLRequest "provided sha does not match query"),
       mkState rc st tr w).
Proof.
  intros Hcache Hext Hversion Hq. cbv zeta.
  unfold resolveQuery, cache_set, catch_console_warn.
  rewrite Hq, Hext, Hcache, Hversion. cbn [Z.eqb Pos.eqb negb].
  destruct (String.eqb _ _); cbn [negb]; [|reflexivity].
  monad_unfold. cbn [requestContext store trace consoleWarnings].
  destruct (cache_set_throws cache _ q);
    cbn [requestContext store trace consoleWarnings]; [reflexivity|].
  destruct (cache_set_failure cache _ q);
    cbn [requestContext store trace consoleWarnings];
    by rewrite <- ?app_assoc.
Qed.



(** *** What the cache does on [set] stays out of the response *)

Lemma SendRun_deterministic stack d rc response p1 rc1 es1 p2 rc2 es2 :
  SendRun stack d rc response p1 rc1 es1 ->
  SendRun stack d rc response p2 rc2 es2 ->
  p1 = p2 /\ rc1 = rc2 /\ es1 = es2.
Proof.
  inversion 1; inversion 1; subst; try congruence;
    try match goal with
        | Ha : ?x = inr _, Hb : ?x = inr _ |- _ =>
            rewrite Ha in Hb; injection Hb as ->
        | Ha : ?x = inl _, Hb : ?x = inl _ |- _ =>
            rewrite Ha in Hb; injection Hb as ->
        end; done.
Qed.

Lemma ExecutionRun_deterministic config stack d request doc ends rc
    p1 rc1 es1 p2 rc2 es2 :
  ExecutionRun config stack d request doc ends rc p1 rc1 es1 ->
  ExecutionRun config stack d request doc ends rc p2 rc2 es2 ->
  p1 = p2 /\ rc1 = rc2 /\ es1 = es2.
Proof.
  inversion 1; inversion 1; subst; try congruence;
    match goal with
    | Ha : executeWithDefer ?x = _, Hb : executeWithDefer ?x = _ |- _ =>
        rewrite Ha in Hb; simplify_eq
    end;
    match goal with
    | Ha : SendRun _ _ _ _ _ _ _, Hb : SendRun _ _ _ _ _ _ _ |- _ =>
        destruct (SendRun_deterministic _ _ _ _ _ _ _ _ _ _ Ha Hb)
          as (-> & -> & ->)
    end; done.
Qed.

Lemma OperationRun_deterministic config stack d request doc rc
    r1 rc1 es1 r2 rc2 es2 :
  OperationRun config stack d request doc rc r1 rc1 es1 ->
  OperationRun config stack d request doc rc r2 rc2 es2 ->
  r1 = r2 /\ rc1 = rc2 /\ es1 = es2.
Proof.
  inversion 1; inversion 1; subst; try congruence;
    match goal with
    | Ha : snd ?x = _, Hb : snd ?x = _ |- _ =>
        rewrite Ha in Hb; simplify_eq
    end;
    try match goal with
        | Ha : ExecutionRun _ _ _ _ _ _ _ _ _ _,
          Hb : ExecutionRun _ _ _ _ _ _ _ _ _ _ |- _ =>
            destruct (ExecutionRun_deterministic _ _ _ _ _ _ _ _ _ _ _ _ _ Ha Hb)
              as (-> & -> & ->)
        end;
    done.
Qed.

Lemma StagesRun_deterministic config stack d request q ends rc
    r1 rc1 es1 r2 rc2 es2 :
  StagesRun config stack d request q ends rc r1 rc1 es1 ->
  StagesRun config stack d request q ends rc r2 rc2 es2 ->
  r1 = r2 /\ rc1 = rc2 /\ es1 = es2.
Proof.
  inversion 1; inversion 1; subst; try congruence;
    match goal with
    | Ha : graphql_parse ?x = _, Hb : graphql_parse ?x = _ |- _ =>
        rewrite Ha in Hb; simplify_eq
    end;
    try match goal with
        | Ha : graphql_validate ?s ?doc ?rules = _,
          Hb : graphql_validate ?s ?doc ?rules = _ |- _ =>
            rewrite Ha in Hb; simplify_eq
        end;
    try match goal with
        | Ha : SendRun _ _ _ _ _ _ _, Hb : SendRun _ _ _ _ _ _ _ |- _ =>
            destruct (SendRun_deterministic _ _ _ _ _ _ _ _ _ _ Ha Hb)
              as (-> & -> & ->)
        | Ha : OperationRun _ _ _ _ _ _ _ _ _,
          Hb : OperationRun _ _ _ _ _ _ _ _ _ |- _ =>
            destruct (OperationRun_deterministic _ _ _ _ _ _ _ _ _ _ _ _ Ha Hb)
              as (-> & -> & ->)
        end;
    done.
Qed.

Lemma ExecutionRun_withCache config cache stack d request doc ends rc p rc' es :
  ExecutionRun (withCache config cache) stack d request doc ends rc p rc' es ->
  ExecutionRun config stack d request doc ends rc p rc' es.
Proof.
  inversion 1; subst.
  - eapply (ExecutionFailure config); eauto.
  - eapply (PlainExecution config); eauto.
  - eapply (DeferredExecution config); eauto.
Qed.

Lemma OperationRun_withCache config cache stack d request doc rc r rc' es :
  OperationRun (withCache config cache) stack d request doc rc r rc' es ->
  OperationRun config stack d request doc rc r rc' es.
Proof.
  inversion 1; subst.
  - by eapply HookRejection.
  - eapply HooksResolved; eauto using ExecutionRun_withCache.
Qed.

Lemma StagesRun_withCache config cache stack d request q ends rc r rc' es :
  StagesRun (withCache config cache) stack d request q ends rc r rc' es ->
  StagesRun config stack d request q ends rc r rc' es.
Proof.
  inversion 1; subst.
  - eapply SyntaxFailure; eauto.
  - eapply (ValidationThrow config); eauto.
  - eapply (ValidationFailure config); eauto.
  - eapply (Validated config); eauto using OperationRun_withCache.
Qed.

Lemma resolveQuery_withCache config c1 c2 request rc st tr w :
  (forall hint q,
     req_extensions request ≫= persistedQuery = Some hint ->
     req_query request = Some q ->
     cache_set_throws c1 (String.append "apq:" (sha256Hash hint)) q
     = cache_set_throws c2 (String.append "apq:" (sha256Hash hint)) q) ->
  fst (resolveQuery (withCache config c1) request (mkState rc st tr w))
  = fst (resolveQuery (withCache config c2) request (mkState rc st tr w)).
Proof.
  intros Hsame.
  unfold resolveQuery, cache_get, cache_set, catch_console_warn.
  cbn [persistedQueries withCache mbind option_bind pq_cache].
  monad_unfold. cbn [requestContext store trace consoleWarnings].
  repeat match goal with
         | |- context [match ?x with _ => _ end] =>
             lazymatch x with
             | context [match _ with _ => _ end] => fail
             | _ => destruct x eqn:?
             end
         end;
    cbn [fst]; try congruence;
    match goal with
    | Ha : cache_set_throws c1 _ _ = _ |- _ =>
        rewrite (Hsame _ _ eq_refl eq_refl) in Ha
    end;
    congruence.
Qed.


(** The outcome of a request, the request context it leaves and its calls
    to everything but the cache are the same for two caches whose [set]
    throws alike on what the request writes, whatever becomes of the
    promises they return. *)
Lemma cache_writes_stay_out_of_the_response config c1 c2 rc st :
  (forall hint q,
     req_extensions (rc_request rc) ≫= persistedQuery = Some hint ->
     req_query (rc_request rc) = Some q ->
     cache_set_throws c1 (String.append "apq:" (sha256Hash hint)) q
     = cache_set_throws c2 (String.append "apq:" (sha256Hash hint)) q) ->
  outcome (withCache config c1) rc st = outcome (withCache config c2) rc st /\
  finalContext (withCache config c1) rc st
  = finalContext (withCache config c2) rc st /\
  List.filter isOtherCall (events (withCache config c1) rc st)
  = List.filter isOtherCall (events (withCache config c2) rc st).
Proof.
  intros Hsame. unfold finalContext, events.
  pose proof (run_RequestRun (withCache config c1) rc st) as Hrun1.
  pose proof (run_RequestRun (withCache config c2) rc st) as Hrun2.
  revert Hrun1 Hrun2.
  generalize (outcome (withCache config c1) rc st)
             (snd (run (withCache config c1) rc st))
             (outcome (withCache config c2) rc st)
             (snd (run (withCache config c2) rc st)).
  intros p1 s1 p2 s2 Hrun1 Hrun2.
  assert (Hrequest : rc_request (readyContext config rc) = rc_request rc)
    by (unfold readyContext; by destruct (dataSources config)).
  pose proof (resolveQuery_withCache config c1 c2 (rc_request rc)
                (readyContext config rc) st (initEvents config rc) []
                Hsame) as Hres.
  change (readyContext (withCache config c1) rc) with (readyContext config rc) in *.
  change (readyContext (withCache config c2) rc) with (readyContext config rc) in *.
  change (initEvents (withCache config c1) rc) with (initEvents config rc) in *.
  change (initEvents (withCache config c2) rc) with (initEvents config rc) in *.
  inversion Hrun1 as [f1 v1 Hd1 Hc1|e1 t1 Hno1 Hr1|q1 h1 hit1 reg1 t1 r1 rc1 es1 Hno1 Hr1 Hs1];
    inversion Hrun2 as [f2 v2 Hd2 Hc2|e2 t2 Hno2 Hr2|q2 h2 hit2 reg2 t2 r2 rc2 es2 Hno2 Hr2 Hs2];
    subst;
    try (exfalso;
         match goal with
         | Hno : noDataSourceConflict _ _ |- _ =>
             destruct Hno as [Hno|Hno]; cbn in *; congruence
         end);
    try (change (readyContext (withCache config c1) rc)
           with (readyContext config rc) in *;
         change (readyContext (withCache config c2) rc)
           with (readyContext config rc) in *;
         change (initEvents (withCache config c1) rc)
           with (initEvents config rc) in *;
         change (initEvents (withCache config c2) rc)
           with (initEvents config rc) in *;
         rewrite Hr1, Hr2 in Hres; cbn [fst] in Hres).
  - done.
  - injection Hres as ->.
    destruct (resolveQuery_frame _ _ _ _ _ _ _ _ Hr1) as (-> & a1 & -> & Ha1).
    destruct (resolveQuery_frame _ _ _ _ _ _ _ _ Hr2) as (-> & a2 & -> & Ha2).
    split; [done|]. split; [done|].
    rewrite !List.filter_app.
    rewrite (filter_cacheEvents isOtherCall a1 Ha1)
      by (unfold isOtherCall; by intros e ->).
    rewrite (filter_cacheEvents isOtherCall a2 Ha2)
      by (unfold isOtherCall; by intros e ->).
    done.
  - discriminate.
  - discriminate.
  - injection Hres as -> -> -> ->.
    destruct (resolveQuery_frame _ _ _ _ _ _ _ _ Hr1) as (Hrc1 & a1 & Ht1 & Ha1).
    destruct (resolveQuery_frame _ _ _ _ _ _ _ _ Hr2) as (Hrc2 & a2 & Ht2 & Ha2).
    rewrite Hrc1 in Hs1. rewrite Hrc2 in Hs2.
    apply StagesRun_withCache in Hs1. apply StagesRun_withCache in Hs2.
    change (requestStack (withCache config c1)) with (requestStack config) in Hs1.
    change (requestStack (withCache config c2)) with (requestStack config) in Hs2.
    change (requestDispatcher (withCache config c1) rc)
      with (requestDispatcher config rc) in Hs1.
    change (requestDispatcher (withCache config c2) rc)
      with (requestDispatcher config rc) in Hs2.
    destruct (StagesRun_deterministic _ _ _ _ _ _ _ _ _ _ _ _ _ Hs1 Hs2)
      as (-> & -> & ->).
    split; [done|]. split; [done|].
    cbn [trace consoleWarnings]. rewrite Ht1, Ht2, Hrc1, Hrc2.
    change (requestDispatcher (withCache config c1) rc)
      with (requestDispatcher config rc).
    change (requestDispatcher (withCache config c2) rc)
      with (requestDispatcher config rc).
    rewrite !List.filter_app.
    rewrite (filter_cacheEvents isOtherCall a1 Ha1)
      by (unfold isOtherCall; by intros e ->).
    rewrite (filter_cacheEvents isOtherCall a2 Ha2)
      by (unfold isOtherCall; by intros e ->).
    done.
Qed.


(** ** Further properties of the pipeline *)

Ltac tally :=
  unfold count, initEvents, parseEvents, validateEvents, executeEvents,
    startEvents, endEvents;
  repeat first
    [ rewrite List.filter_app
    | match goal with
      | |- context [List.filter ?p (List.map ?f ?l)] =>
          rewrite (filter_map_none p f l) by no_such
      | |- context [List.filter ?p (fst (collectDidEnd ?stage ?c ?i ?d))] =>
          rewrite (filter_collectDidEnd p stage c d i) by no_such
      | |- context [List.filter ?p (fst (hookCalls ?hook ?c ?i ?d))] =>
          rewrite (filter_hookCalls p hook c d i) by no_such
      | |- context [List.filter ?p (fst (pluginRun ?config ?c))] =>
          rewrite (filter_pluginRun p config c) by no_such
      | |- context [List.filter ?p (dataSourceEvents ?config)] =>
          rewrite (filter_dataSourceEvents p config) by no_such
      | Hc : Forall (fun e => isCacheEvent e = true) ?es
        |- context [List.filter ?p ?es] =>
          rewrite (filter_cacheEvents p es Hc) by (by intros [])
      end
    | progress cbn [List.filter app List.length trace consoleWarnings requestContext store
                      isDispatchWillSend isExtWillSend isSetResponse
                      isRequestDidStart isRequestDidEnd isCacheSet
                      isSetQueryHash isDataSourceInitialize
                      isEngineParse isEngineValidate isExecutionEvent
                      isRejection isCacheEvent
                      isCacheCall isEngineExecute isExtFormat
                      isPluginRequestDidStart sameStage isExtDidStart
                      isExtDidEnd isDispatchDidStart isDispatchDidEnd isSetOperation
                      negb] ].

(** X1.  The request scope of the extension stack is opened at most once
    in a request, and it is closed at most once, and only when it was
    opened.  Once the request is in the [try] block of line 192, which
    begins with the extension stack's [parsingDidStart] (line 308), the
    scope was opened, and the cleanup block closes it, exactly once,
    whatever the outcome. *)
Theorem request_scope_is_closed_once config rc st :
  count isRequestDidStart (events config rc st) <= 1 /\
  count isRequestDidEnd (events config rc st)
  <= count isRequestDidStart (events config rc st) /\
  (In (ExtDidStart Parsing) (events config rc st) ->
   count isRequestDidStart (events config rc st) = 1 /\
   count isRequestDidEnd (events config rc st) = 1).
Proof.
  split; [|split].
  1-2: run_cases config rc st;
    [ tally; cbn; lia
    | resolved_state; tally; cbn; lia
    | resolved_state; invert_runs; tally; cbn; lia ].
  intros Hin. in_filter Hin (isExtDidStart Parsing). revert Hin.
  run_cases config rc st.
  - tally. done.
  - resolved_state. tally. done.
  - resolved_state. invert_runs; tally; done.
Qed.

Lemma resolveQuery_lookup config request rc st tr w cache hint :
  persistedQueries config ≫= pq_cache = Some cache ->
  req_extensions request ≫= persistedQuery = Some hint ->
  version hint = 1%Z ->
  req_query request = None ->
  let key := String.append "apq:" (sha256Hash hint) in
  resolveQuery config request (mkState rc st tr w)
  = match st !! key with
    | Some text =>
        if truthy text then
          (Ret (text, sha256Hash hint, true, false),
           mkState rc st (tr ++ [CacheGet key (Some text)]) w)
        else
          (Throw PersistedQueryNotFound,
           mkState rc st (tr ++ [CacheGet key (Some text)]) w)
    | None =>
        (Throw PersistedQueryNotFound,
         mkState rc st (tr ++ [CacheGet key None]) w)
    end.
Proof.
  intros Hcache Hext Hversion Hq. cbv zeta.
  unfold resolveQuery, cache_get.
  rewrite Hq, Hext, Hcache, Hversion. cbn [Z.eqb Pos.eqb negb].
  monad_unfold. cbn [requestContext store trace consoleWarnings].
  destruct (st !! _) as [text|]; [destruct (truthy text)|]; reflexivity.
Qed.

(** X2.  A persisted-query hit: for a version-1 hint that comes without
    query text, when the cache holds a non-empty text under
    ["apq:" + sha256Hash], the cache is read once, with that key, and
    never written; the stored text is what the engine parses; the request
    scope is opened as a hit; and the query hash of the context is the
    declared hash, as it came, with the request left as it was. *)
Theorem persisted_query_hit config rc st cache hint text :
  noDataSourceConflict config rc ->
  persistedQueries config ≫= pq_cache = Some cache ->
  req_extensions (rc_request rc) ≫= persistedQuery = Some hint ->
  version hint = 1%Z ->
  req_query (rc_request rc) = None ->
  st !! String.append "apq:" (sha256Hash hint) = Some text ->
  text <> "" ->
  let key := String.append "apq:" (sha256Hash hint) in
  List.filter isCacheEvent (events config rc st)
    = [CacheGet key (Some text)] /\
  finalStore config rc st = st /\
  List.filter isRequestDidStart (events config rc st)
    = [ExtRequestDidStart true false] /\
  List.filter isEngineParse (events config rc st)
    = [EngineParse text (graphql_parse text)] /\
  List.filter isSetQueryHash (events config rc st)
    = [SetQueryHash (sha256Hash hint)] /\
  rc_queryHash (finalContext config rc st) = Some (sha256Hash hint) /\
  rc_request (finalContext config rc st) = rc_request rc.
Proof.
  intros Hno Hcache Hext Hversion Hq Hstored Htext. cbv zeta.
  assert (Htruthy : truthy text = true).
  { unfold truthy. apply negb_true_iff. by apply String.eqb_neq. }
  run_cases config rc st.
  - destruct Hno; congruence.
  - match goal with
    | Hres : resolveQuery _ _ _ = _ |- _ =>
        rewrite (resolveQuery_lookup _ _ _ _ _ _ cache hint
                   Hcache Hext Hversion Hq) in Hres;
        rewrite Hstored, Htruthy in Hres
    end.
    discriminate.
  - match goal with
    | Hres : resolveQuery _ _ _ = _ |- _ =>
        rewrite (resolveQuery_lookup _ _ _ _ _ _ cache hint
                   Hcache Hext Hversion Hq) in Hres;
        rewrite Hstored, Htruthy in Hres;
        injection Hres as <- <- <- <- <-
    end.
    cbn [requestContext store trace consoleWarnings] in *.
    invert_runs; tally; final_context; done.
Qed.

(** X3.  A persisted-query miss: for a version-1 hint that comes without
    query text, when the cache holds nothing under ["apq:" + sha256Hash],
    or holds the empty text, the promise rejects with
    [PersistedQueryNotFoundError] after that one read; nothing is written,
    nothing is parsed, and the request scope is not opened. *)
Theorem persisted_query_miss config rc st cache hint :
  noDataSourceConflict config rc ->
  persistedQueries config ≫= pq_cache = Some cache ->
  req_extensions (rc_request rc) ≫= persistedQuery = Some hint ->
  version hint = 1%Z ->
  req_query (rc_request rc) = None ->
  let key := String.append "apq:" (sha256Hash hint) in
  (st !! key = None \/ st !! key = Some "") ->
  outcome config rc st = Rejected PersistedQueryNotFound /\
  List.filter isCacheEvent (events config rc st)
    = [CacheGet key (st !! key)] /\
  finalStore config rc st = st /\
  count isEngineParse (events config rc st) = 0 /\
  count isRequestDidStart (events config rc st) = 0 /\
  rc_queryHash (finalContext config rc st) = rc_queryHash rc.
Proof.
  intros Hno Hcache Hext Hversion Hq. cbv zeta. intros Hstored.
  run_cases config rc st.
  - destruct Hno; congruence.
  - match goal with
    | Hres : resolveQuery _ _ _ = _ |- _ =>
        rewrite (resolveQuery_lookup _ _ _ _ _ _ cache hint
                   Hcache Hext Hversion Hq) in Hres
    end.
    destruct Hstored as [Hstored|Hstored]; rewrite Hstored in *;
      cbn [truthy String.eqb negb] in *;
      match goal with
      | Hres : _ = (Throw _, _) |- _ => injection Hres as <- <-
      end;
      tally; final_context; done.
  - match goal with
    | Hres : resolveQuery _ _ _ = _ |- _ =>
        rewrite (resolveQuery_lookup _ _ _ _ _ _ cache hint
                   Hcache Hext Hversion Hq) in Hres
    end.
    destruct Hstored as [Hstored|Hstored]; rewrite Hstored in *;
      cbn [truthy String.eqb negb] in *; discriminate.
Qed.

(** What the query-resolution stage does to the cache: nothing, one read
    for a hint that comes alone, or one write for a hint that comes with
    the text of that hash. *)
Lemma resolveQuery_cache config request rc st tr w r s :
  resolveQuery config request (mkState rc st tr w) = (r, s) ->
  exists es,
    trace s = tr ++ es /\
    ((es = [] /\ store s = st /\ consoleWarnings s = w) \/
     (exists hint,
        req_extensions request ≫= persistedQuery = Some hint /\
        req_query request = None /\
        es = [CacheGet (String.append "apq:" (sha256Hash hint))
                (st !! String.append "apq:" (sha256Hash hint))] /\
        store s = st /\ consoleWarnings s = w) \/
     (exists hint text cache,
        req_extensions request ≫= persistedQuery = Some hint /\
        req_query request = Some text /\
        persistedQueries config ≫= pq_cache = Some cache /\
        sha256Hash hint = computeQueryHash text /\
        let key := String.append "apq:" (computeQueryHash text) in
        match cache_set_throws cache key text with
        | Some thrown =>
            es = [CacheSetThrow key text thrown] /\
            store s = st /\ consoleWarnings s = w
        | None =>
            match cache_set_failure cache key text with
            | Some failure =>
                es = [CacheSet key text (Some failure)] /\
                store s = st /\ consoleWarnings s = w ++ [failure]
            | None =>
                es = [CacheSet key text None] /\
                store s = <[key := text]> st /\ consoleWarnings s = w
            end
        end)).
Proof.
  intros Hres. cbv zeta.
  destruct (req_extensions request ≫= persistedQuery) as [hint|] eqn:Hext;
    [destruct (persistedQueries config ≫= pq_cache) as [cache|] eqn:Hcache;
     [destruct (Z.eqb (version hint) 1) eqn:Hversion;
      [apply Z.eqb_eq in Hversion;
       destruct (req_query request) as [text|] eqn:Hq|]|]|].
  - rewrite (resolveQuery_register _ _ _ _ _ _ cache hint text
               Hcache Hext Hversion Hq) in Hres.
    destruct (String.eqb _ _) eqn:Heqb.
    + apply String.eqb_eq in Heqb.
      destruct (cache_set_throws cache _ text) as [thrown|] eqn:Hthrows;
        [|destruct (cache_set_failure cache _ text) as [failure|] eqn:Hset];
        injection Hres as <- <-; cbn [trace consoleWarnings store];
        (eexists; split; [reflexivity|]); right; right;
        exists hint, text, cache; rewrite <- Heqb, Hthrows, ?Hset; done.
    + injection Hres as <- <-. exists []. rewrite app_nil_r.
      split; [reflexivity|by left].
  - rewrite (resolveQuery_lookup _ _ _ _ _ _ cache hint
               Hcache Hext Hversion Hq) in Hres.
    destruct (st !! _) as [text|] eqn:Hstored; [destruct (truthy text)|];
      injection Hres as <- <-; cbn [trace consoleWarnings store];
      (eexists; split; [reflexivity|]); right; left;
      exists hint; rewrite Hstored; done.
  - unfold resolveQuery in Hres. rewrite Hext, Hcache, Hversion in Hres.
    cbn [negb] in Hres. monad_unfold. injection Hres as <- <-.
    exists []. rewrite app_nil_r. split; [reflexivity|by left].
  - unfold resolveQuery in Hres. rewrite Hext, Hcache in Hres.
    monad_unfold. injection Hres as <- <-.
    exists []. rewrite app_nil_r. split; [reflexivity|by left].
  - unfold resolveQuery in Hres. rewrite Hext in Hres.
    destruct (req_query request) as [text|]; [destruct (truthy text)|];
      monad_unfold; injection Hres as <- <-;
      exists []; rewrite app_nil_r; (split; [reflexivity|by left]).
Qed.

Ltac cache_state :=
  match goal with
  | H : resolveQuery _ _ (mkState _ _ _ _) = (_, ?s) |- _ =>
      let Hrc := fresh "Hrc" in
      let es := fresh "cached" in
      let Htr := fresh "Htr" in
      let Hcases := fresh "Hcases" in
      destruct (resolveQuery_frame _ _ _ _ _ _ _ _ H) as (Hrc & _);
      destruct (resolveQuery_cache _ _ _ _ _ _ _ _ H) as (es & Htr & Hcases);
      destruct s as [? ? ? ?];
      cbn [trace consoleWarnings requestContext store] in Hrc, Htr, Hcases |- *;
      subst;
      destruct Hcases
        as [(-> & -> & ->)
           |[(? & ? & ? & -> & -> & ->)
            |(? & ? & ? & ? & ? & ? & ? & Hcases)]];
      [ | | cbv zeta in Hcases;
            match type of Hcases with
            | context [cache_set_throws ?c ?k ?t] =>
                destruct (cache_set_throws c k t) eqn:?
            end;
            [|match type of Hcases with
              | context [cache_set_failure ?c ?k ?t] =>
                  destruct (cache_set_failure c k t) eqn:?
              end];
            destruct Hcases as (-> & -> & ->) ];
      cbn [app] in *;
      clear H
  end.


(** X5.  A request calls the cache at most once, read or write.  Without
    a write the store is left as it was and nothing is given to
    [console.warn]; a request without a persisted-query hint does not
    touch the cache at all. *)
Theorem cache_is_called_at_most_once config rc st :
  count isCacheCall (events config rc st) <= 1 /\
  (count isCacheSet (events config rc st) = 0 ->
   finalStore config rc st = st /\
   warnings config rc st = []) /\
  (req_extensions (rc_request rc) ≫= persistedQuery = None ->
   count isCacheEvent (events config rc st) = 0).
Proof.
  unfold warnings. run_cases config rc st.
  - tally. cbn. split; [lia|done].
  - cache_state; tally; cbn; (split; [lia|]); split; intros; simplify_eq; done.
  - cache_state; invert_runs; tally; cbn; (split; [lia|]);
      split; intros; simplify_eq; done.
Qed.

(** X6.  How the promise of a cache write settles never shows.  Take any
    two caches in the place of the configured one whose [set] calls throw
    alike (two caches that return a promise from every [set], say):
    however the promises they return settle, the promise of the request
    settles the same way, the request context ends the same, and every
    call to another collaborator is the same, in the same order. *)
Theorem cache_failure_is_invisible config c1 c2 rc st :
  (forall key value,
     cache_set_throws c1 key value = cache_set_throws c2 key value) ->
  outcome (withCache config c1) rc st = outcome (withCache config c2) rc st /\
  finalContext (withCache config c1) rc st
  = finalContext (withCache config c2) rc st /\
  List.filter isOtherCall (events (withCache config c1) rc st)
  = List.filter isOtherCall (events (withCache config c2) rc st).
Proof.
  intros Hsame. apply cache_writes_stay_out_of_the_response.
  intros hint q _ _. apply Hsame.
Qed.

(** X7.  A syntax error is answered, not thrown.  When the engine's
    [parse] fails with [e], the dispatcher's parsing end callback is told
    of [e], the document of the context stays unset, neither validation
    nor execution runs, and the response that is sent has the single
    error [e] with class [SyntaxError] and no [data]; the promise is
    fulfilled with it unless a listener's [willSendResponse] rejects. *)
Theorem syntax_error_is_answered config rc st q e :
  In (EngineParse q (inl e)) (events config rc st) ->
  let response :=
    overwrite (spread_response (rc_response rc))
      (errorResponse [e] (Some SyntaxError)) in
  let sent :=
    Complete (thread_willSendResponse (requestStack config) response) in
  count isEngineValidate (events config rc st) = 0 /\
  count isExecutionEvent (events config rc st) = 0 /\
  List.filter (isDispatchDidEnd Parsing) (events config rc st)
    = [DispatchDidEnd Parsing [e]] /\
  List.filter isExtWillSend (events config rc st)
    = [ExtWillSendResponse response] /\
  response !! "errors"
    = Some (JErrors [mkError SyntaxError (errMessage e)]) /\
  response !! "data" = Some JUndefined /\
  rc_document (finalContext config rc st) = rc_document rc /\
  rc_response (finalContext config rc st) = Some sent /\
  (outcome config rc st = Fulfilled sent \/
   exists rejection,
     outcome config rc st = Rejected rejection /\
     count (isRejection WillSendResponse) (events config rc st) = 1).
Proof.
  intros Hin. cbv zeta. revert Hin. run_cases config rc st; intros Hin.
  - in_filter Hin isEngineParse. revert Hin. tally. done.
  - resolved_state. in_filter Hin isEngineParse. revert Hin. tally. done.
  - resolved_state. in_filter Hin isEngineParse. revert Hin.
    invert_runs; tally; intros [Hin|[]]; injection Hin as -> Hparse;
      try congruence;
      match goal with
      | Hp : graphql_parse _ = inl _ |- _ =>
          rewrite Hp in Hparse; injection Hparse as ->
      end.
    final_context.
    do 4 (split; [reflexivity|]).
    split; [by rewrite overwrite_errors|].
    split; [by rewrite overwrite_data|].
    do 2 (split; [reflexivity|]).
    match goal with
    | |- context [snd (hookCalls WillSendResponse ?c 0 ?d)] =>
        pose proof (hookCalls_rejection WillSendResponse c d 0) as Hrej;
        destruct (snd (hookCalls WillSendResponse c 0 d)) as [rejection|]
    end.
    + right. exists rejection. split; [reflexivity|].
      destruct Hrej as [j Hj]. by rewrite Hj.
    + by left.
Qed.

(** X8.  An execution error is answered, not thrown.  When the engine's
    execute fails with [e], the dispatcher's execution end callback is
    told of [e], the extension stack is not asked to format anything, and
    the response that is sent has the single error [e], converted
    without an error class, and no [data]; the promise is fulfilled with
    it unless a listener's [willSendResponse] rejects. *)
Theorem execution_error_is_answered config rc st args e :
  In (EngineExecute args (inl e)) (events config rc st) ->
  let response :=
    overwrite (spread_response (rc_response rc))
      (errorResponse [e] None) in
  let sent :=
    Complete (thread_willSendResponse (requestStack config) response) in
  executeWithDefer args = inl e /\
  count isExtFormat (events config rc st) = 0 /\
  List.filter (isDispatchDidEnd Execution) (events config rc st)
    = [DispatchDidEnd Execution [e]] /\
  List.filter isExtWillSend (events config rc st)
    = [ExtWillSendResponse response] /\
  response !! "errors" = Some (JErrors [fromGraphQLError e None]) /\
  response !! "data" = Some JUndefined /\
  rc_response (finalContext config rc st) = Some sent /\
  (outcome config rc st = Fulfilled sent \/
   exists rejection,
     outcome config rc st = Rejected rejection /\
     count (isRejection WillSendResponse) (events config rc st) = 1).
Proof.
  intros Hin. cbv zeta. revert Hin. run_cases config rc st; intros Hin.
  - in_filter Hin isEngineExecute. revert Hin. tally. done.
  - resolved_state. in_filter Hin isEngineExecute. revert Hin. tally. done.
  - resolved_state. in_filter Hin isEngineExecute. revert Hin.
    invert_runs; tally; try done; intros [Hin|[]];
      injection Hin as <- Hresult;
      try congruence;
      match goal with
      | Hx : executeWithDefer _ = inl _ |- _ =>
          rewrite Hx in Hresult; injection Hresult as ->
      end.
    final_context.
    split; [assumption|].
    do 3 (split; [reflexivity|]).
    split; [by rewrite overwrite_errors|].
    split; [by rewrite overwrite_data|].
    split; [reflexivity|].
    match goal with
    | |- context [snd (hookCalls WillSendResponse ?c 0 ?d)] =>
        pose proof (hookCalls_rejection WillSendResponse c d 0) as Hrej;
        destruct (snd (hookCalls WillSendResponse c 0 d)) as [rejection|]
    end.
    + right. exists rejection. split; [reflexivity|].
      destruct Hrej as [j Hj]. by rewrite Hj.
    + by left.
Qed.

Lemma filter_singleton_In {A} (p : A -> bool) (l : list A) (x : A) :
  List.filter p l = [x] -> In x l.
Proof.
  intros Hf. apply (List.filter_In p x l). rewrite Hf. by left.
Qed.

Lemma hookCalls_rejection_In hook rc targets i e :
  snd (hookCalls hook rc i targets) = Some e ->
  exists j, In (ListenerHook j hook (Some e)) (fst (hookCalls hook rc i targets)).
Proof.
  intros Hsnd. pose proof (hookCalls_rejection hook rc targets i) as Hrej.
  rewrite Hsnd in Hrej. destruct Hrej as [j Hj]. exists j.
  by apply (filter_singleton_In (isRejection hook)).
Qed.

Ltac locate H :=
  cbn [trace consoleWarnings];
  repeat first [rewrite <- app_assoc | progress cbn [app]];
  solve [ repeat first
            [ exact H
            | apply in_or_app; left; exact H
            | right
            | apply in_or_app; right ] ].

(** X9.  A throw of the engine's [validate] is not caught.  When
    [validate] throws for the parsed document, the extension stack's
    validation scope is still closed, by the [finally] of lines 327-331,
    but the dispatcher's validation end callback is never called (line
    210 is under no [catch]); the promise rejects with what was thrown;
    no operation is resolved, nothing is executed and no response is
    sent, so the response of the context stays as it was; and the cleanup
    block closes the request scope, once. *)
Theorem validation_throw_propagates config rc st doc rules thrown :
  In (EngineValidate doc rules (inl thrown)) (events config rc st) ->
  outcome config rc st = Rejected thrown /\
  count (isExtDidStart Validation) (events config rc st) = 1 /\
  count (isExtDidEnd Validation) (events config rc st) = 1 /\
  count (isDispatchDidStart Validation) (events config rc st) = 1 /\
  count (isDispatchDidEnd Validation) (events config rc st) = 0 /\
  count isSetOperation (events config rc st) = 0 /\
  count isExecutionEvent (events config rc st) = 0 /\
  count isExtWillSend (events config rc st) = 0 /\
  count isRequestDidEnd (events config rc st) = 1 /\
  rc_document (finalContext config rc st) = Some doc /\
  rc_response (finalContext config rc st) = rc_response rc.
Proof.
  intros Hin. revert Hin. run_cases config rc st; intros Hin.
  - in_filter Hin isEngineValidate. revert Hin. tally. done.
  - resolved_state. in_filter Hin isEngineValidate. revert Hin. tally. done.
  - resolved_state. in_filter Hin isEngineValidate. revert Hin.
    invert_runs; tally; try done; intros [Hin|[]];
      injection Hin as <- <- Hresult;
      match goal with
      | Hv : graphql_validate _ _ _ = _ |- _ =>
          rewrite Hv in Hresult; try discriminate;
          injection Hresult as <-
      end.
    final_context. done.
Qed.

(** X10.  The response of the request context is written at most once
    in a request, with what the extension stack's [willSendResponse]
    returned, and that call is made at most once.  When the promise is
    fulfilled, the write was made and the value of the promise is the
    response the context holds; without a write the response of the
    context is the one the caller gave. *)
Theorem response_is_written_at_most_once config rc st :
  count isExtWillSend (events config rc st)
  = count isSetResponse (events config rc st) /\
  match List.filter isSetResponse (events config rc st) with
  | [] =>
      rc_response (finalContext config rc st) = rc_response rc /\
      exists e, outcome config rc st = Rejected e
  | [SetResponse written] =>
      rc_response (finalContext config rc st) = Some written /\
      match outcome config rc st with
      | Fulfilled value => value = written
      | Rejected _ => True
      end
  | _ => False
  end.
Proof.
  run_cases config rc st.
  - tally. cbn. eauto.
  - resolved_state. tally. final_context. cbn. eauto.
  - resolved_state.
    invert_runs; tally; final_context; cbv beta iota;
      try match goal with
          | |- context [snd (hookCalls WillSendResponse ?c 0 ?d)] =>
              destruct (snd (hookCalls WillSendResponse c 0 d))
          end;
      cbn; eauto.
Qed.

Lemma readyContext_context config rc :
  rc_context (readyContext config rc) !! "_extensionStack"
  = Some (ExtensionStackValue (requestStack config)) /\
  match dataSources config with
  | Some factory =>
      rc_context (readyContext config rc) !! "dataSources"
      = Some (DataSourcesValue (factory tt))
  | None =>
      rc_context (readyContext config rc) !! "dataSources"
      = rc_context rc !! "dataSources"
  end /\
  (forall key,
     key <> "_extensionStack" -> key <> "dataSources" ->
     rc_context (readyContext config rc) !! key = rc_context rc !! key).
Proof.
  unfold readyContext, initialContext.
  destruct (dataSources config) as [factory|]; cbn [rc_context with_context].
  - split; [|split].
    + rewrite lookup_insert_ne by done. by rewrite lookup_insert_eq.
    + by rewrite lookup_insert_eq.
    + intros key Hstack Hsources. by rewrite !lookup_insert_ne.
  - split; [|split].
    + by rewrite lookup_insert_eq.
    + by rewrite lookup_insert_ne.
    + intros key Hstack Hsources. by rewrite lookup_insert_ne.
Qed.

(** X11.  The engine's execute is called at most once in a request, and
    what it is given is built from the request and the configuration: the
    parsed document, the operation name and the variables of the request,
    the schema, the field resolver and the defer switch of the
    configuration, the root value (computed from the document when the
    configuration gives a function), and the user context, which by then
    holds the extension stack under [_extensionStack] and, when the
    configuration supplies data sources, these under [dataSources], with
    every other entry as the caller gave it. *)
Theorem execution_sees_the_enriched_context config rc st args result :
  In (EngineExecute args result) (events config rc st) ->
  List.filter isEngineExecute (events config rc st)
    = [EngineExecute args result] /\
  result = executeWithDefer args /\
  rc_document (finalContext config rc st) = Some (args_document args) /\
  args_operationName _ _ _ args = req_operationName (rc_request rc) /\
  args_variableValues _ _ _ args = req_variables (rc_request rc) /\
  args_schema _ _ _ args = schema config /\
  args_fieldResolver _ _ _ args = fieldResolver config /\
  args_enableDefer _ _ _ args = enableDefer config /\
  args_rootValue _ _ _ args
  = match rootValue config with
    | Some (RootFunction f) => f (args_document args)
    | Some (RootConstant v) => v
    | None => JUndefined
    end /\
  args_contextValue args = rc_context (finalContext config rc st) /\
  args_contextValue args !! "_extensionStack"
  = Some (ExtensionStackValue (requestStack config)) /\
  match dataSources config with
  | Some factory =>
      args_contextValue args !! "dataSources"
      = Some (DataSourcesValue (factory tt))
  | None =>
      args_contextValue args !! "dataSources" = rc_context rc !! "dataSources"
  end /\
  (forall key,
     key <> "_extensionStack" -> key <> "dataSources" ->
     args_contextValue args !! key = rc_context rc !! key).
Proof.
  intros Hin. revert Hin. run_cases config rc st; intros Hin.
  - in_filter Hin isEngineExecute. revert Hin. tally. done.
  - resolved_state. in_filter Hin isEngineExecute. revert Hin. tally. done.
  - resolved_state. in_filter Hin isEngineExecute. revert Hin.
    pose proof (readyContext_context config rc) as (Hstack & Hsources & Hkeys).
    invert_runs; tally; try done; intros [Hin|[]];
      injection Hin as <- <-; final_context;
      unfold executionArgs;
      cbn [args_document args_contextValue args_operationName
             args_variableValues args_schema args_fieldResolver
             args_enableDefer args_rootValue];
      final_context; done.
Qed.

(** X12.  Whatever the outcome, the pipeline leaves the request of the
    context as it was and changes the user context in two places only: it
    puts the extension stack under [_extensionStack], and it puts the
    supplied data sources under [dataSources] when the configuration
    supplies some and the caller had put nothing there. *)
Theorem user_context_gains_two_entries config rc st :
  rc_request (finalContext config rc st) = rc_request rc /\
  rc_context (finalContext config rc st) !! "_extensionStack"
  = Some (ExtensionStackValue (requestStack config)) /\
  match dataSources config, rc_context rc !! "dataSources" with
  | Some factory, None =>
      rc_context (finalContext config rc st) !! "dataSources"
      = Some (DataSourcesValue (factory tt))
  | _, _ =>
      rc_context (finalContext config rc st) !! "dataSources"
      = rc_context rc !! "dataSources"
  end /\
  (forall key,
     key <> "_extensionStack" -> key <> "dataSources" ->
     rc_context (finalContext config rc st) !! key = rc_context rc !! key).
Proof.
  pose proof (readyContext_context config rc) as (Hstack & Hsources & Hkeys).
  assert (Hmatch :
    match dataSources config, rc_context rc !! "dataSources" with
    | Some factory, None =>
        rc_context (readyContext config rc) !! "dataSources"
        = Some (DataSourcesValue (factory tt))
    | Some _, Some _ => True
    | None, _ =>
        rc_context (readyContext config rc) !! "dataSources"
        = rc_context rc !! "dataSources"
    end).
  { destruct (dataSources config); [|done].
    by destruct (rc_context rc !! "dataSources"). }
  run_cases config rc st.
  - cbn [requestContext]. unfold initialContext. cbn [rc_request rc_context with_context].
    match goal with Hd : dataSources config = Some _ |- _ => rewrite Hd end.
    match goal with Hc : rc_context rc !! "dataSources" = Some _ |- _ => rewrite Hc end.
    split; [done|]. split; [by rewrite lookup_insert_eq|].
    split; [by rewrite lookup_insert_ne|].
    intros key Hk _. by rewrite lookup_insert_ne.
  - resolved_state. final_context.
    match goal with
    | Hno : noDataSourceConflict _ _ |- _ => destruct Hno as [Hno|Hno]; rewrite Hno in *
    end;
      try destruct (dataSources config); try destruct (rc_context rc !! "dataSources");
      done.
  - resolved_state.
    match goal with
    | Hno : noDataSourceConflict _ _ |- _ => destruct Hno as [Hno|Hno]; rewrite Hno in *
    end;
      try destruct (dataSources config); try destruct (rc_context rc !! "dataSources");
      invert_runs; final_context; done.
Qed.





(** X15.  The engine executes only what it parsed and found valid: when
    execute is called, its document is the one the engine's [parse]
    returned for the query text, and [validate] returned no error for that
    document under the rule set of the configuration. *)
Theorem execution_only_after_clean_validation config rc st args result :
  In (EngineExecute args result) (events config rc st) ->
  exists q,
    In (EngineParse q (inr (args_document args))) (events config rc st) /\
    In (EngineValidate (args_document args) (validationRuleSet config)
          (inr []))
      (events config rc st) /\
    rc_document (finalContext config rc st) = Some (args_document args).
Proof.
  intros Hin. revert Hin. run_cases config rc st; intros Hin.
  - in_filter Hin isEngineExecute. revert Hin. tally. done.
  - resolved_state. in_filter Hin isEngineExecute. revert Hin. tally. done.
  - resolved_state. in_filter Hin isEngineExecute. revert Hin.
    invert_runs; tally; try done; intros [Hin|[]];
      injection Hin as <- <-;
      unfold executionArgs; cbn [args_document]; final_context;
      match goal with
      | Hp : graphql_parse ?q = inr _,
        Hv : graphql_validate _ _ _ = inr [] |- _ =>
          exists q; unfold parseEvents, validateEvents;
          rewrite Hp, Hv
      end;
      (split; [find_in|]); (split; [find_in|reflexivity]).
Qed.





Lemma length_be_bytes n : forall x, List.length (Sha256.be_bytes n x) = n.
Proof.
  induction n as [|n IH]; intros x; cbn [Sha256.be_bytes]; [done|].
  rewrite length_app, IH. cbn. lia.
Qed.

Lemma be_bytes_are_bytes n : forall x,
  Forall (fun b => (b < 256)%N) (Sha256.be_bytes n x).
Proof.
  induction n as [|n IH]; intros x; cbn [Sha256.be_bytes]; [constructor|].
  apply Forall_app. split; [apply IH|].
  constructor; [|constructor].
  change 255%N with (N.ones 8). rewrite N.land_ones.
  apply N.mod_lt. done.
Qed.

Lemma length_compress h block :
  List.length h = 8 -> List.length (Sha256.compress h block) = 8.
Proof.
  intros Hh. unfold Sha256.compress.
  rewrite length_map, length_combine, Hh. reflexivity.
Qed.

Lemma length_fold_compress bs : forall h,
  List.length h = 8 -> List.length (fold_left Sha256.compress bs h) = 8.
Proof.
  induction bs as [|b bs IH]; intros h Hh; cbn [fold_left]; [done|].
  apply IH. by apply length_compress.
Qed.

Lemma length_H0 : List.length Sha256.H0 = 8.
Proof. vm_compute. reflexivity. Qed.

Lemma digest_bytes msg :
  List.length (Sha256.digest msg) = 32 /\
  Forall (fun b => (b < 256)%N) (Sha256.digest msg).
Proof.
  unfold Sha256.digest. cbv zeta.
  pose proof (length_fold_compress
                (Sha256.blocks
                   (List.length
                      (Sha256.be_words (List.length (Sha256.pad msg))
                         (Sha256.pad msg)))
                   (Sha256.be_words (List.length (Sha256.pad msg))
                      (Sha256.pad msg)))
                Sha256.H0 length_H0) as Hlen.
  revert Hlen. generalize (fold_left Sha256.compress
    (Sha256.blocks
       (List.length
          (Sha256.be_words (List.length (Sha256.pad msg)) (Sha256.pad msg)))
       (Sha256.be_words (List.length (Sha256.pad msg)) (Sha256.pad msg)))
    Sha256.H0).
  intros h Hlen.
  do 9 (destruct h as [|? h]; try discriminate).
  cbn [List.flat_map]. rewrite app_nil_r.
  split.
  - rewrite !length_app, !length_be_bytes. reflexivity.
  - repeat first [apply be_bytes_are_bytes | apply Forall_app; split].
Qed.

Lemma hex_digit_is_hex n :
  (n < 16)%N -> isHexDigit (Sha256.hex_digit n) = true.
Proof.
  intros Hn.
  assert (Hall : forallb (fun k => isHexDigit (Sha256.hex_digit k))
                   (List.map N.of_nat (seq 0 16)) = true)
    by (vm_compute; reflexivity).
  rewrite forallb_forall in Hall. apply Hall.
  apply in_map_iff. exists (N.to_nat n). split; [lia|].
  apply in_seq. lia.
Qed.

Lemma hex_of_bytes bs :
  Forall (fun b => (b < 256)%N) bs ->
  String.length (Sha256.hex bs) = 2 * List.length bs /\
  forallb isHexDigit (list_ascii_of_string (Sha256.hex bs)) = true.
Proof.
  induction 1 as [|b bs Hb _ [IHlen IHhex]]; [done|].
  cbn [Sha256.hex String.length List.length list_ascii_of_string forallb].
  rewrite IHlen, IHhex. split; [lia|].
  rewrite !hex_digit_is_hex; [done| |].
  - change 15%N with (N.ones 4). rewrite N.land_ones.
    apply N.mod_lt. done.
  - rewrite N.shiftr_div_pow2. change (2 ^ 4)%N with 16%N.
    apply N.Div0.div_lt_upper_bound. lia.
Qed.

(** X18.  The query hash is always 64 lower-case hexadecimal digits,
    whatever the query text. *)
Theorem computeQueryHash_is_64_hex_digits query :
  String.length (computeQueryHash query) = 64 /\
  forallb isHexDigit (list_ascii_of_string (computeQueryHash query)) = true.
Proof.
  unfold computeQueryHash.
  destruct (digest_bytes (Sha256.bytes_of query)) as [Hlen Hbytes].
  destruct (hex_of_bytes _ Hbytes) as [Hhexlen Hhex].
  rewrite Hhexlen, Hlen. done.
Qed.





(** X20.  The operation of the context is read off the document, and its
    absence does not stop the request.  When the pipeline sets the
    operation, it is what [getOperationAST] finds in the parsed document
    under the operation name of the request, found or not; the operation
    name it sets is the name of that operation when it has a non-empty
    one and [null] otherwise; the context ends with both.  The dispatcher
    is then asked to run [didResolveOperation], and the engine's execute
    is called once unless a listener rejects there. *)
Theorem operation_is_read_off_the_document config rc st op name :
  In (SetOperation op name) (events config rc st) ->
  (exists doc,
     rc_document (finalContext config rc st) = Some doc /\
     op = getOperationAST doc (req_operationName (rc_request rc))) /\
  name
  = match op ≫= operation_name with
    | Some "" => None
    | found => found
    end /\
  rc_operation (finalContext config rc st) = op /\
  rc_operationName (finalContext config rc st) = Some name /\
  (count isEngineExecute (events config rc st) = 1 \/
   count (isRejection DidResolveOperation) (events config rc st) = 1 /\
   count isEngineExecute (events config rc st) = 0).
Proof.
  assert (Hname : forall o,
    resolvedOperationName o
    = match o ≫= operation_name with
      | Some "" => None
      | found => found
      end).
  { intros [o|]; [|done]. cbn. destruct (operation_name o) as [[|c s]|]; done. }
  intros Hin. revert Hin. run_cases config rc st; intros Hin.
  - in_filter Hin isSetOperation. revert Hin. tally. done.
  - resolved_state. in_filter Hin isSetOperation. revert Hin. tally. done.
  - resolved_state. in_filter Hin isSetOperation. revert Hin.
    invert_runs; tally; try done; intros [Hin|[]];
      injection Hin as <- <-; final_context;
      (split; [eexists; split; reflexivity|]);
      (split; [apply Hname|]);
      do 2 (split; [reflexivity|]);
      rejections DidResolveOperation;
      cbn [List.length app Nat.add]; auto.
Qed.

(** X21.  A rejection of [willSendResponse] is not caught either.  When
    a listener's [willSendResponse] rejects with [e], the promise rejects
    with [e] although the response has been built: the extension stack
    has seen it and the context holds it.  The cleanup block still closes
    the request scope, once. *)
Theorem willSendResponse_rejection_propagates config rc st i e :
  In (ListenerHook i WillSendResponse (Some e)) (events config rc st) ->
  outcome config rc st = Rejected e /\
  (exists written,
     List.filter isSetResponse (events config rc st)
       = [SetResponse (Complete written)] /\
     rc_response (finalContext config rc st) = Some (Complete written)) /\
  count isExtWillSend (events config rc st) = 1 /\
  count isDispatchWillSend (events config rc st) = 1 /\
  count isRequestDidEnd (events config rc st) = 1.
Proof.
  intros Hin. revert Hin. run_cases config rc st; intros Hin.
  - in_filter Hin (isRejection WillSendResponse). revert Hin. tally. done.
  - resolved_state. in_filter Hin (isRejection WillSendResponse).
    revert Hin. tally. done.
  - resolved_state. in_filter Hin (isRejection WillSendResponse).
    revert Hin.
    invert_runs; tally; rejections WillSendResponse;
      cbn [List.filter app]; try done;
      intros [Hin|[]]; injection Hin as <- <-;
      final_context;
      (split; [reflexivity|]);
      (split; [eexists; split; reflexivity|]);
      do 2 (split; [reflexivity|]);
      reflexivity.
Qed.

(** X22.  A plain request is parsed as it came.  For a request with a
    non-empty query text and no persisted-query hint, when the
    data-source configuration error does not arise, the request scope is
    opened with both persisted-query flags off, the engine parses exactly
    that text, once, and the cache is neither read nor written. *)
Theorem plain_request_is_parsed_as_given config rc st q :
  noDataSourceConflict config rc ->
  req_query (rc_request rc) = Some q ->
  req_extensions (rc_request rc) ≫= persistedQuery = None ->
  q <> "" ->
  List.filter isRequestDidStart (events config rc st)
    = [ExtRequestDidStart false false] /\
  List.filter isEngineParse (events config rc st)
    = [EngineParse q (graphql_parse q)] /\
  count isCacheEvent (events config rc st) = 0 /\
  finalStore config rc st = st.
Proof.
  intros Hno Hq Hext Hne.
  assert (Htruthy : truthy q = true).
  { unfold truthy. apply negb_true_iff. by apply String.eqb_neq. }
  run_cases config rc st.
  - destruct Hno; congruence.
  - match goal with
    | Hres : resolveQuery _ _ _ = _ |- _ =>
        rewrite (resolveQuery_plain _ _ _ _ _ _ q Hq Hext), Htruthy in Hres
    end.
    discriminate.
  - match goal with
    | Hres : resolveQuery _ _ _ = _ |- _ =>
        rewrite (resolveQuery_plain _ _ _ _ _ _ q Hq Hext), Htruthy in Hres;
        injection Hres as <- <- <- <- <-
    end.
    cbn [requestContext store trace consoleWarnings] in *.
    invert_runs; tally; done.
Qed.

Lemma resolveQuery_unsupported config request rc st tr w hint :
  req_extensions request ≫= persistedQuery = Some hint ->
  (persistedQueries config ≫= pq_cache = None \/ version hint <> 1%Z) ->
  resolveQuery config request (mkState rc st tr w)
  = (Throw
       match persistedQueries config ≫= pq_cache with
       | None => PersistedQueryNotSupported
       | Some _ =>
           InvalidGraphQLRequest "Unsupported persisted query version"
       end,
     mkState rc st tr w).
Proof.
  intros Hext Hwhy. unfold resolveQuery. rewrite Hext.
  destruct (persistedQueries config ≫= pq_cache) as [cache|]; [|reflexivity].
  destruct Hwhy as [Hwhy|Hwhy]; [discriminate|].
  apply Z.eqb_neq in Hwhy. rewrite Hwhy. reflexivity.
Qed.

(** X23.  A persisted-query hint is checked before anything else of the
    request is looked at.  With a hint, a request fails with
    [PersistedQueryNotSupportedError] when no cache is configured, and
    with the unsupported-version error when a cache is configured and the
    version is not 1, whether or not query text comes with it; the cache
    is not called, nothing is parsed and the request scope is not
    opened. *)
Theorem persisted_query_hint_is_checked_first config rc st hint :
  noDataSourceConflict config rc ->
  req_extensions (rc_request rc) ≫= persistedQuery = Some hint ->
  (persistedQueries config ≫= pq_cache = None \/ version hint <> 1%Z) ->
  outcome config rc st
  = Rejected
      match persistedQueries config ≫= pq_cache with
      | None => PersistedQueryNotSupported
      | Some _ =>
          InvalidGraphQLRequest "Unsupported persisted query version"
      end /\
  count isCacheEvent (events config rc st) = 0 /\
  finalStore config rc st = st /\
  count isEngineParse (events config rc st) = 0 /\
  count isRequestDidStart (events config rc st) = 0.
Proof.
  intros Hno Hext Hwhy.
  run_cases config rc st.
  - destruct Hno; congruence.
  - match goal with
    | Hres : resolveQuery _ _ _ = _ |- _ =>
        rewrite (resolveQuery_unsupported _ _ _ _ _ _ hint Hext Hwhy) in Hres;
        injection Hres as <- <-
    end.
    tally. done.
  - match goal with
    | Hres : resolveQuery _ _ _ = _ |- _ =>
        rewrite (resolveQuery_unsupported _ _ _ _ _ _ hint Hext Hwhy) in Hres
    end.
    discriminate.
Qed.

End Properties.

(** * The claims on the requests of the fixture *)

Import Fixture.

Example sha256_round_constants :
  List.length Sha256.K = 64 /\
  firstn 2 Sha256.K = [1116352408; 1899447441]%N /\
  Sha256.H0
  = [1779033703; 3144134277; 1013904242; 2773480762;
     1359893119; 2600822924; 528734635; 1541459225]%N.
Proof. vm_compute. repeat split; reflexivity. Qed.

Example sha256_of_empty_text :
  computeQueryHash ""
  = "e3b0c44298fc1c149afbf4c8996fb92427ae41e4649b934ca495991b7852b855".
Proof. vm_compute. reflexivity. Qed.

Example sha256_of_abc :
  computeQueryHash "abc"
  = "ba7816bf8f01cfea414140de5dae2223b00361a396177a9cb410ff61f20015ad".
Proof. vm_compute. reflexivity. Qed.

Example sha256_of_two_blocks :
  computeQueryHash "abcdbcdecdefdefgefghfghighijhijkijkljklmklmnlmnomnopnopq"
  = "248d6a61d20638b8e5c026930c3e6039a33ce45964ff2167f6ecedd419db06c1".
Proof. vm_compute. reflexivity. Qed.

Example okHash_is_hash : computeQueryHash "{ ok }" = okHash.
Proof. vm_compute. reflexivity. Qed.

(** C1 fails on the code: a request with no query text and no hint is not
    answered with a response, the promise rejects. *)
Lemma missing_query_is_not_answered :
  outcome (config None false false) (requestContextOf None None ∅) ∅
  = Rejected (InvalidGraphQLRequest "Must provide query string.") /\
  count isExtWillSend
    (events (config None false false) (requestContextOf None None ∅) ∅) = 0 /\
  rc_response
    (finalContext (config None false false) (requestContextOf None None ∅) ∅)
  = Some (Complete transportResponse).
Proof. vm_compute. repeat split; reflexivity. Qed.

Lemma resolution_failure_rejects_witness :
  noDataSourceConflict (config None false false)
    (requestContextOf None None ∅) /\
  resolutionFailure (config None false false)
    (rc_request (requestContextOf None None ∅)) ∅
  = Some (InvalidGraphQLRequest "Must provide query string.") /\
  outcome (config None false false) (requestContextOf None None ∅) ∅
  = Rejected (InvalidGraphQLRequest "Must provide query string.").
Proof.
  assert (Hno : noDataSourceConflict (config None false false)
                  (requestContextOf None None ∅)) by (left; reflexivity).
  assert (Hfail : resolutionFailure (config None false false)
                    (rc_request (requestContextOf None None ∅)) ∅
                  = Some (InvalidGraphQLRequest "Must provide query string."))
    by reflexivity.
  split; [exact Hno|]. split; [exact Hfail|].
  exact (proj1 (resolution_failure_rejects _ _ _ _ Hno Hfail)).
Defined.

Lemma in_of_filter {A} (p : A -> bool) (l : list A) (x : A) :
  List.filter p l = [x] -> In x l.
Proof.
  intros Hf. apply (List.filter_In p x l). rewrite Hf. by left.
Qed.

Lemma deferred_outcome_ends_request_in_cleanup_witness :
  outcome (config None false false) (plainRequest "{ slow @defer }") ∅
  = Fulfilled (Deferred deferredEnvelope) /\
  d_requestDidEnd deferredEnvelope = RequestDidEndCallback /\
  exists before,
    events (config None false false) (plainRequest "{ slow @defer }") ∅
    = before ++ [ExtRequestDidEnd] /\
    count isRequestDidEnd before = 0.
Proof.
  assert (Hout : outcome (config None false false)
                   (plainRequest "{ slow @defer }") ∅
                 = Fulfilled (Deferred deferredEnvelope))
    by (vm_compute; reflexivity).
  split; [exact Hout|].
  exact (deferred_outcome_ends_request_in_cleanup _ _ _ _ Hout).
Defined.

(** C3 fails on the code: when a listener's [didResolveOperation] rejects,
    no response is sent and no execution end callback is invoked; the
    promise rejects with the listener's error. *)
Lemma rejected_didResolveOperation_is_not_answered :
  In (ListenerHook 0 DidResolveOperation (Some hookError))
    (events (config None true false) (plainRequest "{ ok }") ∅) /\
  outcome (config None true false) (plainRequest "{ ok }") ∅
  = Rejected hookError /\
  count isSetResponse
    (events (config None true false) (plainRequest "{ ok }") ∅) = 0 /\
  count isExecutionEvent
    (events (config None true false) (plainRequest "{ ok }") ∅) = 0.
Proof.
  split; [|vm_compute; repeat split; reflexivity].
  apply (in_of_filter (isRejection DidResolveOperation)).
  vm_compute. reflexivity.
Qed.

Lemma didResolveOperation_rejection_propagates_witness :
  In (ListenerHook 0 DidResolveOperation (Some hookError))
    (events (config None true false) (plainRequest "{ ok }") ∅) /\
  outcome (config None true false) (plainRequest "{ ok }") ∅
  = Rejected hookError.
Proof.
  assert (Hin : In (ListenerHook 0 DidResolveOperation (Some hookError))
                  (events (config None true false) (plainRequest "{ ok }") ∅)).
  { apply (in_of_filter (isRejection DidResolveOperation)).
    vm_compute. reflexivity. }
  split; [exact Hin|].
  exact (proj1 (didResolveOperation_rejection_propagates _ _ _ _ _ Hin)).
Defined.




Lemma validation_rules_and_failure_witness :
  In (EngineParse "{ id @defer }" (inr "{ id @defer }"))
    (events (config None false false) (plainRequest "{ id @defer }") ∅) /\
  List.filter isEngineValidate
    (events (config None false false) (plainRequest "{ id @defer }") ∅)
  = [EngineValidate "{ id @defer }"
       ["ExecutableDefinitions"; "KnownTypeNames";
        "CannotDeferNonNullableFields"; "NoIntrospection"]
       (inr [mkError GraphQLError
               "@defer cannot be applied on non-nullable field"])] /\
  count isExecutionEvent
    (events (config None false false) (plainRequest "{ id @defer }") ∅) = 0.
Proof.
  assert (Hin : In (EngineParse "{ id @defer }" (inr "{ id @defer }"))
                  (events (config None false false)
                     (plainRequest "{ id @defer }") ∅)).
  { apply (in_of_filter isEngineParse). vm_compute. reflexivity. }
  split; [exact Hin|].
  pose proof (validation_rules_and_failure _ _ _ _ _ Hin) as [Hrules Hfail].
  split; [exact Hrules|]. exact (proj1 Hfail).
Defined.


Lemma stage_events_in_order_witness :
  In (DispatchDidStart Execution)
    (events (config None false false) (plainRequest "{ ok }") ∅) /\
  forall m,
    exists e,
      In e (events (config None false false) (plainRequest "{ ok }") ∅) /\
      stageMark e = Some m.
Proof.
  assert (Hin : In (DispatchDidStart Execution)
                  (events (config None false false) (plainRequest "{ ok }") ∅)).
  { apply (in_of_filter
             (fun e => match e with
                       | DispatchDidStart Execution => true
                       | _ => false
                       end)).
    vm_compute. reflexivity. }
  split; [exact Hin|].
  exact (proj2 (stage_events_in_order _ _ _ Hin)).
Defined.

Lemma dataSources_conflict_after_initialize_witness :
  dataSources (config None false true) = Some (fun _ => sources) /\
  rc_context crowdedContext !! "dataSources" = Some (UserValue JNull) /\
  outcome (config None false true) crowdedContext ∅ = Rejected conflictError /\
  exists before,
    events (config None false true) crowdedContext ∅
    = before ++ [DataSourceInitialize "users"; DataSourceInitialize "posts"] /\
    count isDataSourceInitialize before = 0.
Proof.
  assert (Hctx : rc_context crowdedContext !! "dataSources"
                 = Some (UserValue JNull)) by reflexivity.
  split; [reflexivity|]. split; [exact Hctx|].
  pose proof (dataSources_conflict_after_initialize (config None false true)
                crowdedContext ∅ (fun _ => sources) (UserValue JNull)
                eq_refl Hctx) as (Hout & Hevents & _).
  split; [exact Hout|]. exact Hevents.
Defined.

(** A complete and a deferred outcome. *)
Example complete_request_invokes_willSendResponse_once :
  (exists r,
     outcome (config None false false) (plainRequest "{ ok }") ∅
     = Fulfilled (Complete r)) /\
  count isDispatchWillSend
    (events (config None false false) (plainRequest "{ ok }") ∅) = 1.
Proof. split; [eexists|]; vm_compute; reflexivity. Qed.

Example deferred_request_does_not_invoke_willSendResponse :
  outcome (config None false false) (plainRequest "{ slow @defer }") ∅
  = Fulfilled (Deferred deferredEnvelope) /\
  count isDispatchWillSend
    (events (config None false false) (plainRequest "{ slow @defer }") ∅) = 0 /\
  d_initialResponse deferredEnvelope !! "http" = None.
Proof. vm_compute. repeat split; reflexivity. Qed.

(** * The further properties on the requests of the fixture *)

Import Scenarios.

(** A [set] that throws rejects the request, before the request scope is
    opened. *)
Example throwing_set_rejects_the_request :
  outcome (config (Some faultyCache) false false) (registration okHash) ∅
  = Rejected cacheError /\
  List.filter isCacheSet
    (events (config (Some faultyCache) false false) (registration okHash) ∅)
  = [CacheSetThrow (String.append "apq:" okHash) "{ ok }" cacheError] /\
  count isRequestDidStart
    (events (config (Some faultyCache) false false) (registration okHash) ∅)
  = 0.
Proof. vm_compute. repeat split; reflexivity. Qed.

(** A plain result to which [formatResponse] gives an [initialResponse]
    and [deferredPatches] is sent as a deferred response: the dispatcher's
    [willSendResponse] is not invoked for it. *)
Example shaped_result_is_sent_as_deferred :
  List.filter isEngineExecute (events shapingConfig (plainRequest "{ ok }") ∅)
  = [EngineExecute
       (executionArgs shapingConfig
          (finalContext shapingConfig (plainRequest "{ ok }") ∅)
          "{ ok }" None None)
       (inr (PlainResult (<["data" := JString "ok"]> ∅)))] /\
  (exists response,
     outcome shapingConfig (plainRequest "{ ok }") ∅
     = Fulfilled (Complete response) /\
     isDeferredGraphQLResponse (Complete response) = true) /\
  count isDispatchWillSend
    (events shapingConfig (plainRequest "{ ok }") ∅) = 0 /\
  count isExtWillSend (events shapingConfig (plainRequest "{ ok }") ∅) = 1.
Proof.
  split; [vm_compute; reflexivity|].
  split; [eexists; split; vm_compute; reflexivity|].
  vm_compute. split; reflexivity.
Qed.

Lemma persisted_query_hit_witness :
  noDataSourceConflict (config (Some reliableCache) false false)
    (lookup okHash) /\
  storedQuery !! String.append "apq:" okHash = Some "{ ok }" /\
  List.filter isCacheEvent
    (events (config (Some reliableCache) false false) (lookup okHash)
       storedQuery)
  = [CacheGet (String.append "apq:" okHash) (Some "{ ok }")] /\
  List.filter isEngineParse
    (events (config (Some reliableCache) false false) (lookup okHash)
       storedQuery)
  = [EngineParse "{ ok }" (inr "{ ok }")] /\
  rc_queryHash
    (finalContext (config (Some reliableCache) false false) (lookup okHash)
       storedQuery)
  = Some okHash.
Proof.
  assert (Hno : noDataSourceConflict (config (Some reliableCache) false false)
                  (lookup okHash)) by (left; reflexivity).
  assert (Hstored : storedQuery !! String.append "apq:" okHash
                    = Some "{ ok }") by (vm_compute; reflexivity).
  assert (Hne : "{ ok }" <> "") by discriminate.
  split; [exact Hno|]. split; [exact Hstored|].
  pose proof (persisted_query_hit (config (Some reliableCache) false false)
                (lookup okHash) storedQuery reliableCache
                (mkPersistedQuery 1 okHash) "{ ok }"
                Hno eq_refl eq_refl eq_refl eq_refl Hstored Hne)
    as (Hcache & _ & _ & Hparse & _ & Hhash & _).
  split; [exact Hcache|]. split; [exact Hparse|]. exact Hhash.
Defined.

Lemma persisted_query_miss_witness :
  noDataSourceConflict (config (Some reliableCache) false false)
    (lookup okHash) /\
  ((∅ : gmap string string) !! String.append "apq:" okHash = None \/
   (∅ : gmap string string) !! String.append "apq:" okHash = Some "") /\
  outcome (config (Some reliableCache) false false) (lookup okHash) ∅
  = Rejected PersistedQueryNotFound /\
  count isEngineParse
    (events (config (Some reliableCache) false false) (lookup okHash) ∅) = 0.
Proof.
  assert (Hno : noDataSourceConflict (config (Some reliableCache) false false)
                  (lookup okHash)) by (left; reflexivity).
  assert (Hmiss : (∅ : gmap string string) !! String.append "apq:" okHash = None \/
                  (∅ : gmap string string) !! String.append "apq:" okHash = Some "")
    by (left; vm_compute; reflexivity).
  split; [exact Hno|]. split; [exact Hmiss|].
  pose proof (persisted_query_miss (config (Some reliableCache) false false)
                (lookup okHash) ∅ reliableCache (mkPersistedQuery 1 okHash)
                Hno eq_refl eq_refl eq_refl eq_refl Hmiss)
    as (Hout & _ & _ & Hparse & _).
  split; [exact Hout|exact Hparse].
Defined.


Lemma cache_is_called_at_most_once_witness :
  req_extensions (rc_request (plainRequest "{ ok }")) ≫= persistedQuery = None /\
  count isCacheEvent
    (events (config (Some reliableCache) false false) (plainRequest "{ ok }")
       ∅) = 0.
Proof.
  split; [reflexivity|].
  exact (proj2 (proj2 (cache_is_called_at_most_once
                         (config (Some reliableCache) false false)
                         (plainRequest "{ ok }") ∅)) eq_refl).
Defined.

Lemma syntax_error_is_answered_witness :
  In (EngineParse "oops"
        (inl (mkError GraphQLError "Syntax Error: Unexpected Name")))
    (events (config None false false) (plainRequest "oops") ∅) /\
  count isEngineValidate
    (events (config None false false) (plainRequest "oops") ∅) = 0 /\
  List.filter (isDispatchDidEnd Parsing)
    (events (config None false false) (plainRequest "oops") ∅)
  = [DispatchDidEnd Parsing
       [mkError GraphQLError "Syntax Error: Unexpected Name"]].
Proof.
  assert (Hin : In (EngineParse "oops"
                      (inl (mkError GraphQLError
                              "Syntax Error: Unexpected Name")))
                  (events (config None false false) (plainRequest "oops") ∅)).
  { apply (filter_singleton_In isEngineParse). vm_compute. reflexivity. }
  split; [exact Hin|].
  pose proof (syntax_error_is_answered _ _ _ _ _ Hin)
    as (Hvalidate & _ & Hend & _).
  split; [exact Hvalidate|exact Hend].
Defined.

Lemma execution_error_is_answered_witness :
  In (EngineExecute
        (executionArgs (config None false false)
           (finalContext (config None false false) (plainRequest "{ boom }")
              ∅)
           "{ boom }" None None)
        (inl (mkError GraphQLError "boom")))
    (events (config None false false) (plainRequest "{ boom }") ∅) /\
  count isExtFormat
    (events (config None false false) (plainRequest "{ boom }") ∅) = 0 /\
  List.filter (isDispatchDidEnd Execution)
    (events (config None false false) (plainRequest "{ boom }") ∅)
  = [DispatchDidEnd Execution [mkError GraphQLError "boom"]].
Proof.
  assert (Hin : In (EngineExecute
                      (executionArgs (config None false false)
                         (finalContext (config None false false)
                            (plainRequest "{ boom }") ∅)
                         "{ boom }" None None)
                      (inl (mkError GraphQLError "boom")))
                  (events (config None false false)
                     (plainRequest "{ boom }") ∅)).
  { apply (filter_singleton_In isEngineExecute). vm_compute. reflexivity. }
  split; [exact Hin|].
  pose proof (execution_error_is_answered _ _ _ _ _ Hin)
    as (_ & Hformat & Hend & _).
  split; [exact Hformat|exact Hend].
Defined.

Lemma cache_failure_is_invisible_witness :
  (forall key value,
     cache_set_throws reliableCache key value
     = cache_set_throws brokenCache key value) /\
  outcome (withCache (config None false false) reliableCache)
    (registration okHash) ∅
  = outcome (withCache (config None false false) brokenCache)
      (registration okHash) ∅.
Proof.
  assert (Hsame : forall key value,
            cache_set_throws reliableCache key value
            = cache_set_throws brokenCache key value) by reflexivity.
  split; [exact Hsame|].
  exact (proj1 (cache_failure_is_invisible (config None false false)
                  reliableCache brokenCache (registration okHash) ∅ Hsame)).
Defined.

Lemma validation_throw_propagates_witness :
  In (EngineValidate "{ crash }"
        ["ExecutableDefinitions"; "KnownTypeNames";
         "CannotDeferNonNullableFields"; "NoIntrospection"]
        (inl (mkError PlainError "Unknown type")))
    (events (config None false false) (plainRequest "{ crash }") ∅) /\
  outcome (config None false false) (plainRequest "{ crash }") ∅
  = Rejected (mkError PlainError "Unknown type") /\
  count (isExtDidEnd Validation)
    (events (config None false false) (plainRequest "{ crash }") ∅) = 1 /\
  count (isDispatchDidEnd Validation)
    (events (config None false false) (plainRequest "{ crash }") ∅) = 0.
Proof.
  assert (Hin : In (EngineValidate "{ crash }"
                      ["ExecutableDefinitions"; "KnownTypeNames";
                       "CannotDeferNonNullableFields"; "NoIntrospection"]
                      (inl (mkError PlainError "Unknown type")))
                  (events (config None false false)
                     (plainRequest "{ crash }") ∅)).
  { apply (filter_singleton_In isEngineValidate). vm_compute. reflexivity. }
  split; [exact Hin|].
  pose proof (validation_throw_propagates _ _ _ _ _ _ Hin)
    as (Hout & _ & Hext & _ & Hend & _).
  split; [exact Hout|]. split; [exact Hext|exact Hend].
Defined.

Lemma execution_sees_the_enriched_context_witness :
  In (EngineExecute
        (executionArgs (config None false true)
           (finalContext (config None false true) (plainRequest "{ ok }") ∅)
           "{ ok }" None None)
        (inr (PlainResult (<["data" := JString "ok"]> ∅))))
    (events (config None false true) (plainRequest "{ ok }") ∅) /\
  args_contextValue
    (executionArgs (config None false true)
       (finalContext (config None false true) (plainRequest "{ ok }") ∅)
       "{ ok }" None None) !! "dataSources"
  = Some (DataSourcesValue sources).
Proof.
  assert (Hin : In (EngineExecute
                      (executionArgs (config None false true)
                         (finalContext (config None false true)
                            (plainRequest "{ ok }") ∅)
                         "{ ok }" None None)
                      (inr (PlainResult (<["data" := JString "ok"]> ∅))))
                  (events (config None false true) (plainRequest "{ ok }") ∅)).
  { apply (filter_singleton_In isEngineExecute). vm_compute. reflexivity. }
  split; [exact Hin|].
  pose proof (execution_sees_the_enriched_context _ _ _ _ _ Hin)
    as (_ & _ & _ & _ & _ & _ & _ & _ & _ & _ & _ & Hsources & _).
  exact Hsources.
Defined.

Lemma execution_only_after_clean_validation_witness :
  In (EngineExecute
        (executionArgs (config None false false)
           (finalContext (config None false false) (plainRequest "{ ok }") ∅)
           "{ ok }" None None)
        (inr (PlainResult (<["data" := JString "ok"]> ∅))))
    (events (config None false false) (plainRequest "{ ok }") ∅) /\
  exists q,
    In (EngineParse q (inr "{ ok }"))
      (events (config None false false) (plainRequest "{ ok }") ∅).
Proof.
  assert (Hin : In (EngineExecute
                      (executionArgs (config None false false)
                         (finalContext (config None false false)
                            (plainRequest "{ ok }") ∅)
                         "{ ok }" None None)
                      (inr (PlainResult (<["data" := JString "ok"]> ∅))))
                  (events (config None false false) (plainRequest "{ ok }") ∅)).
  { apply (filter_singleton_In isEngineExecute). vm_compute. reflexivity. }
  split; [exact Hin|].
  destruct (execution_only_after_clean_validation _ _ _ _ _ Hin)
    as (q & Hparse & _).
  exists q. exact Hparse.
Defined.



Lemma operation_is_read_off_the_document_witness :
  In (SetOperation (Some "{ ok }") None)
    (events (config None false false) (plainRequest "{ ok }") ∅) /\
  rc_operation (finalContext (config None false false) (plainRequest "{ ok }") ∅)
  = Some "{ ok }" /\
  rc_operationName
    (finalContext (config None false false) (plainRequest "{ ok }") ∅)
  = Some None.
Proof.
  assert (Hin : In (SetOperation (Some "{ ok }") None)
                  (events (config None false false) (plainRequest "{ ok }") ∅)).
  { apply (filter_singleton_In isSetOperation). vm_compute. reflexivity. }
  split; [exact Hin|].
  pose proof (operation_is_read_off_the_document _ _ _ _ _ Hin)
    as (_ & _ & Hop & Hname & _).
  split; [exact Hop|exact Hname].
Defined.

Lemma willSendResponse_rejection_propagates_witness :
  In (ListenerHook 0 WillSendResponse (Some lateError))
    (events lateConfig (plainRequest "{ ok }") ∅) /\
  outcome lateConfig (plainRequest "{ ok }") ∅ = Rejected lateError /\
  count isExtWillSend (events lateConfig (plainRequest "{ ok }") ∅) = 1.
Proof.
  assert (Hin : In (ListenerHook 0 WillSendResponse (Some lateError))
                  (events lateConfig (plainRequest "{ ok }") ∅)).
  { apply (filter_singleton_In (isRejection WillSendResponse)).
    vm_compute. reflexivity. }
  split; [exact Hin|].
  pose proof (willSendResponse_rejection_propagates _ _ _ _ _ Hin)
    as (Hout & _ & Hsent & _).
  split; [exact Hout|exact Hsent].
Defined.

Lemma plain_request_is_parsed_as_given_witness :
  noDataSourceConflict (config None false false) (plainRequest "{ ok }") /\
  req_query (rc_request (plainRequest "{ ok }")) = Some "{ ok }" /\
  req_extensions (rc_request (plainRequest "{ ok }")) ≫= persistedQuery = None /\
  "{ ok }" <> "" /\
  List.filter isEngineParse
    (events (config None false false) (plainRequest "{ ok }") ∅)
  = [EngineParse "{ ok }" (inr "{ ok }")].
Proof.
  assert (Hno : noDataSourceConflict (config None false false)
                  (plainRequest "{ ok }")) by (left; reflexivity).
  assert (Hne : "{ ok }" <> "") by discriminate.
  split; [exact Hno|]. do 2 (split; [reflexivity|]). split; [exact Hne|].
  pose proof (plain_request_is_parsed_as_given (config None false false)
                (plainRequest "{ ok }") ∅ "{ ok }" Hno eq_refl eq_refl Hne)
    as (_ & Hparse & _).
  exact Hparse.
Defined.

Lemma persisted_query_hint_is_checked_first_witness :
  noDataSourceConflict (config (Some reliableCache) false false) futureHint /\
  (persistedQueries (config (Some reliableCache) false false) ≫= pq_cache
   = None \/
   version (mkPersistedQuery 2 okHash) <> 1%Z) /\
  outcome (config (Some reliableCache) false false) futureHint ∅
  = Rejected (InvalidGraphQLRequest "Unsupported persisted query version") /\
  count isCacheEvent
    (events (config (Some reliableCache) false false) futureHint ∅) = 0.
Proof.
  assert (Hno : noDataSourceConflict (config (Some reliableCache) false false)
                  futureHint) by (left; reflexivity).
  assert (Hwhy : persistedQueries (config (Some reliableCache) false false)
                   ≫= pq_cache = None \/
                 version (mkPersistedQuery 2 okHash) <> 1%Z)
    by (right; discriminate).
  split; [exact Hno|]. split; [exact Hwhy|].
  pose proof (persisted_query_hint_is_checked_first
                (config (Some reliableCache) false false) futureHint ∅
                (mkPersistedQuery 2 okHash) Hno eq_refl Hwhy)
    as (Hout & Hcache & _).
  split; [exact Hout|exact Hcache].
Defined.
